(* Verification of the move-classification and accuracy-scoring core of
   Checkmate.io: lib/chess/classification.ts (getWinningChance,
   getCentipawns, getEPL, shouldBeMiss) and lib/chess/analysis.ts (analyse).

   JavaScript numbers are read as real numbers (centipawns, mate distances,
   probabilities); `undefined` is [None].  The win-probability functions
   are also read in double precision, with the rounding made explicit
   ([DoubleOps]), and in Rocq's primitive floats ([Float64]).  The chess.js
   board, the helpers of
   board.ts and the openings table are external collaborators, gathered in
   the record [Board]. *)

From Stdlib Require Import Reals Lra Lia ZArith String List Bool.
From Stdlib Require Floats Uint63.
Import ListNotations.
Open Scope R_scope.

(* ------------------------------------------------------------------------- *)
(** * Real-number comparisons as JavaScript booleans *)

Definition Rle_b (x y : R) : bool := if Rle_dec x y then true else false.
Definition Rlt_b (x y : R) : bool := if Rlt_dec x y then true else false.

Lemma Rle_b_true x y : x <= y -> Rle_b x y = true.
Proof. unfold Rle_b; destruct (Rle_dec x y); [reflexivity | contradiction]. Qed.

Lemma Rle_b_false x y : y < x -> Rle_b x y = false.
Proof. unfold Rle_b; destruct (Rle_dec x y); [lra | reflexivity]. Qed.

Lemma Rlt_b_true x y : x < y -> Rlt_b x y = true.
Proof. unfold Rlt_b; destruct (Rlt_dec x y); [reflexivity | contradiction]. Qed.

Lemma Rlt_b_false x y : y <= x -> Rlt_b x y = false.
Proof. unfold Rlt_b; destruct (Rlt_dec x y); [lra | reflexivity]. Qed.

Lemma Rle_b_false_iff x y : Rle_b x y = false <-> y < x.
Proof. unfold Rle_b; destruct (Rle_dec x y); split; intros; try lra; try discriminate; auto. Qed.

Lemma Rlt_b_false_iff x y : Rlt_b x y = false <-> y <= x.
Proof. unfold Rlt_b; destruct (Rlt_dec x y); split; intros; try lra; try discriminate; auto. Qed.

Lemma Rle_b_spec x y : Rle_b x y = true <-> x <= y.
Proof. unfold Rle_b; destruct (Rle_dec x y); split; intros; auto; discriminate. Qed.

Lemma Rlt_b_spec x y : Rlt_b x y = true <-> x < y.
Proof. unfold Rlt_b; destruct (Rlt_dec x y); split; intros; auto; discriminate. Qed.

Ltac rcmp :=
  repeat match goal with
  | |- context [Rle_b ?x ?y] =>
      first [ rewrite (Rle_b_true x y) by lra | rewrite (Rle_b_false x y) by lra ]
  | |- context [Rlt_b ?x ?y] =>
      first [ rewrite (Rlt_b_true x y) by lra | rewrite (Rlt_b_false x y) by lra ]
  end.

(** JavaScript [String.prototype.includes]. *)
Fixpoint includes (s sub : string) : bool :=
  String.prefix sub s ||
  match s with
  | EmptyString => false
  | String _ s' => includes s' sub
  end.

(** Truthiness of an optional string ([undefined] and the empty string are falsy). *)
Definition truthy_str (s : option string) : bool :=
  match s with
  | Some s => negb (String.eqb s EmptyString)
  | None => false
  end.

Definition opt_str_eqb (a b : option string) : bool :=
  match a, b with
  | Some a, Some b => String.eqb a b
  | None, None => true
  | _, _ => false
  end.

(* ------------------------------------------------------------------------- *)
(** * classification.ts *)

Inductive Classification :=
| BRILLIANT | GREAT | BEST | EXCELLENT | GOOD | INACCURACY | MISTAKE
| BLUNDER | MISS | BOOK | FORCED.

Definition Classification_eqb (a b : Classification) : bool :=
  match a, b with
  | BRILLIANT, BRILLIANT | GREAT, GREAT | BEST, BEST | EXCELLENT, EXCELLENT
  | GOOD, GOOD | INACCURACY, INACCURACY | MISTAKE, MISTAKE
  | BLUNDER, BLUNDER | MISS, MISS | BOOK, BOOK | FORCED, FORCED => true
  | _, _ => false
  end.

Lemma Classification_eqb_eq a b : Classification_eqb a b = true <-> a = b.
Proof. destruct a, b; simpl; split; intro H; congruence. Qed.

(** [Math.pow(10, y)] and [Math.log10]. *)
Definition pow10 (y : R) : R := Rpower 10 y.
Definition log10 (x : R) : R := ln x / ln 10.

(** getMateWinProbability *)
Definition getMateWinProbability (mateIn : R) : R :=
  if Rlt_b 0 mateIn then 0.999 else 0.001.

(** getWinningChance *)
Definition getWinningChance (centipawns : R) (mateIn : option R) : R :=
  match mateIn with
  | Some m => getMateWinProbability m
  | None => 1 / (1 + pow10 (- centipawns / 400))
  end.

(** Results of getCentipawns: a finite number or one of the infinities. *)
Inductive ExtR := NegInf | Fin (r : R) | PosInf.

(** getCentipawns *)
Definition getCentipawns (chance : R) : ExtR :=
  if Rle_b chance 0 then NegInf
  else if Rle_b 1 chance then PosInf
  else Fin (-400 * log10 (1 / chance - 1)).

(** The order of the extended reals [getCentipawns] returns. *)
Definition ExtR_le (a b : ExtR) : Prop :=
  match a, b with
  | NegInf, _ => True
  | _, PosInf => True
  | Fin x, Fin y => x <= y
  | _, _ => False
  end.

(** getEPL *)
Definition getEPL (bestPostCp actualPostCp : R) (bestMateIn actualMateIn : option R) : R :=
  let bestChance := getWinningChance bestPostCp bestMateIn in
  let actualChance := getWinningChance actualPostCp actualMateIn in
  bestChance - actualChance.

(** shouldBeMiss *)
Definition shouldBeMiss (bestPostEval secondBestPostEval playedPostEval : R)
  (bestMateIn secondBestMateIn playedMateIn : option R)
  (playedMoveUCI bestMoveUCI : option string) : bool :=
  if truthy_str playedMoveUCI && truthy_str bestMoveUCI
     && opt_str_eqb playedMoveUCI bestMoveUCI then false else
  let epl := getEPL bestPostEval playedPostEval bestMateIn playedMateIn in
  if Rlt_b epl 0.10 then false else
  let isBestMate :=
    match bestMateIn with
    | Some m => Rlt_b 0 m && Rle_b m 5
    | None => false
    end in
  let isBestTactical := Rle_b 300 bestPostEval || isBestMate in
  if negb isBestTactical then false else
  let tacticalGap :=
    match bestMateIn, secondBestMateIn with
    | Some bm, Some sm => Rabs (bm - sm) * 100
    | Some _, None => 500
    | None, _ => Rabs (bestPostEval - secondBestPostEval)
    end in
  if Rlt_b tacticalGap 200 then false else
  let evalLoss :=
    match bestMateIn, playedMateIn with
    | Some bm, Some pm => (bm - pm) * 100
    | Some _, None => 500
    | None, _ => bestPostEval - playedPostEval
    end in
  Rle_b 150 evalLoss.

(* ------------------------------------------------------------------------- *)
(** * types/Position.ts *)

Inductive EvalType := cp | mate.

Record Evaluation := mkEval {
  type : EvalType;
  value : R;
  mateIn : option R   (* white-relative: positive = White mates *)
}.

Record EngineLine := mkLine {
  id : Z;
  depth : Z;
  evaluation : Evaluation;
  moveUCI : string
}.

Record Move := mkMove { uci : string; san : string }.

(** EvaluatedPosition, with the fields analyse attaches through
    [(position as any)]; an absent field reads as [None]. *)
Record EvaluatedPosition := mkPos {
  fen : string;
  move : Move;
  topLines : list EngineLine;
  classification : option Classification;
  opening : option string;
  bestAfterWhite : option R;
  playedAfterWhite : option R;
  bestMateInWhite : option R;
  playedMateInWhite : option R;
  prevEvalWhite : option R;
  prevMateInWhite : option R;
  EPL : option R
}.

Definition set_classification (p : EvaluatedPosition) (c : option Classification) :=
  mkPos (fen p) (move p) (topLines p) c (opening p) (bestAfterWhite p)
    (playedAfterWhite p) (bestMateInWhite p) (playedMateInWhite p)
    (prevEvalWhite p) (prevMateInWhite p) (EPL p).

Definition set_opening (p : EvaluatedPosition) (o : option string) :=
  mkPos (fen p) (move p) (topLines p) (classification p) o (bestAfterWhite p)
    (playedAfterWhite p) (bestMateInWhite p) (playedMateInWhite p)
    (prevEvalWhite p) (prevMateInWhite p) (EPL p).

Inductive Color := white | black.

(** The external collaborators of analyse.  [moves_count], [isCheckmate] and
    [isCheck] are chess.js queries on a FEN; [sacrifice] is the outcome of the
    board-aware sacrifice search of analysis.ts (the piece scan with
    isPieceHanging / getAttackers and the trial captures), reported for
    (lastPosition.fen, position.fen, position.move.uci, moveColor);
    [openings] is resources/openings.json as (fen, name) pairs. *)
Record Board := mkBoard {
  moves_count : string -> nat;
  isCheckmate : string -> bool;
  isCheck : string -> bool;
  sacrifice : string -> string -> string -> Color -> bool;
  openings : list (string * string)
}.

(* ------------------------------------------------------------------------- *)
(** * analysis.ts: the classification pass *)

Definition find_line (n : Z) (ls : list EngineLine) : option EngineLine :=
  find (fun l => Z.eqb (id l) n) ls.

Definition opt_mul (m : option R) (k : R) : option R :=
  match m with Some x => Some (x * k) | None => None end.

(** [x || 0] on an optional number. *)
Definition or0 (x : option R) : R := match x with Some v => v | None => 0 end.

Definition mover_of (f : string) : Color :=
  if includes f " b " then white else black.

Definition multiplier (c : Color) : R :=
  match c with white => 1 | black => -1 end.

(** The local (mover-relative) temporaries of one iteration of the loop. *)
Module Ctx.
Record t := mk {
  lastPosition : EvaluatedPosition;
  position : EvaluatedPosition;
  topMove : EngineLine;
  secondTopMove : option EngineLine;
  previousEvaluation : Evaluation;
  evaluation : Evaluation;
  lines : list EngineLine;           (* position.topLines after the push *)
  moveColor : Color;
  moverMultiplier : R;
  prevMoverMultiplier : R;
  bestAfterWhite : R;
  bestMateInWhite : option R;
  playedAfterWhite : R;
  playedMateInWhite : option R;
  bestAfterMover : R;
  playedAfterMover : R;
  bestMateInMover : option R;
  playedMateInMover : option R;
  EPL : R
}.
End Ctx.

(** Lines 307-389: everything up to the computation of EPL.  [None] is the
    [continue] taken when the previous position has no PV1 line. *)
Definition make_ctx (B : Board) (lastPosition position : EvaluatedPosition)
  : option Ctx.t :=
  let topMove := find_line 1 (topLines lastPosition) in
  let secondTopMove := find_line 2 (topLines lastPosition) in
  match topMove with
  | None => None
  | Some topMove =>
  match option_map evaluation (find_line 1 (topLines lastPosition)) with
  | None => None
  | Some previousEvaluation =>
  let moveColor := mover_of (fen position) in
  let moverMultiplier := match moveColor with white => 1 | black => -1 end in
  let prevMoverMultiplier := - moverMultiplier in
  let '(evaluation', lines) :=
    match option_map evaluation (find_line 1 (topLines position)) with
    | Some e => (e, topLines position)
    | None =>
        let e := mkEval (if isCheckmate B (fen position) then mate else cp) 0 None in
        (e, topLines position ++ [mkLine 1 0 e EmptyString])
    end in
  let bestAfterWhite := value (evaluation topMove) in
  let bestMateInWhite := mateIn (evaluation topMove) in
  let playedAfterWhite := value evaluation' in
  let playedMateInWhite := mateIn evaluation' in
  let bestAfterMover := bestAfterWhite * moverMultiplier in
  let playedAfterMover := playedAfterWhite * moverMultiplier in
  let bestMateInMover := opt_mul bestMateInWhite moverMultiplier in
  let playedMateInMover := opt_mul playedMateInWhite moverMultiplier in
  let WinProbBest := getWinningChance bestAfterMover bestMateInMover in
  let WinProbPlayed := getWinningChance playedAfterMover playedMateInMover in
  let EPL := WinProbBest - WinProbPlayed in
  Some (Ctx.mk lastPosition position topMove secondTopMove previousEvaluation
          evaluation' lines moveColor moverMultiplier prevMoverMultiplier
          bestAfterWhite bestMateInWhite playedAfterWhite playedMateInWhite
          bestAfterMover playedAfterMover bestMateInMover playedMateInMover EPL)
  end
  end.

(** Lines 391-399: the fields stored on the position. *)
Definition store (c : Ctx.t) : EvaluatedPosition :=
  let p := Ctx.position c in
  mkPos (fen p) (move p) (Ctx.lines c) (classification p) (opening p)
    (Some (Ctx.bestAfterWhite c))
    (Some (Ctx.playedAfterWhite c))
    (Ctx.bestMateInWhite c)
    (Ctx.playedMateInWhite c)
    (Some (or0 (Some (value (Ctx.previousEvaluation c)))))
    (mateIn (Ctx.previousEvaluation c))
    (Some (Ctx.EPL c)).

(** Lines 403-404: the FORCED test, on the board of [position.fen]. *)
Definition is_forced (B : Board) (c : Ctx.t) : bool :=
  let legalMoves := moves_count B (fen (Ctx.position c)) in
  Nat.leb legalMoves 1
  || (match Ctx.secondTopMove c with None => true | Some _ => false end
      && Nat.eqb legalMoves 1).

(** Lines 446-456. *)
Definition epl_tier (EPL : R) : Classification :=
  if Rle_b EPL 0.02 then EXCELLENT
  else if Rle_b EPL 0.05 then GOOD
  else if Rle_b EPL 0.10 then INACCURACY
  else if Rle_b EPL 0.20 then MISTAKE
  else BLUNDER.

(** Lines 423-458: BEST, MISS or the EPL tier. *)
Definition base_classification (c : Ctx.t) : Classification :=
  if Rle_b (Ctx.EPL c) 0.0001
     || String.eqb (moveUCI (Ctx.topMove c)) (uci (move (Ctx.position c)))
  then BEST
  else
    let secondBestAfterWhite :=
      match Ctx.secondTopMove c with
      | Some l => value (evaluation l)
      | None => Ctx.bestAfterWhite c
      end in
    let secondBestAfterMover := secondBestAfterWhite * Ctx.moverMultiplier c in
    let secondBestMateInWhite :=
      match Ctx.secondTopMove c with Some l => mateIn (evaluation l) | None => None end in
    let secondBestMateInMover := opt_mul secondBestMateInWhite (Ctx.moverMultiplier c) in
    if shouldBeMiss (Ctx.bestAfterMover c) secondBestAfterMover (Ctx.playedAfterMover c)
         (Ctx.bestMateInMover c) secondBestMateInMover (Ctx.playedMateInMover c)
         (Some (uci (move (Ctx.position c)))) (Some (moveUCI (Ctx.topMove c)))
    then MISS
    else epl_tier (Ctx.EPL c).

(** [secondTopMove?.evaluation.value || 0] *)
Definition second_or0 (c : Ctx.t) : R :=
  match Ctx.secondTopMove c with Some l => value (evaluation l) | None => 0 end.

(** Lines 462-495: the GREAT test. *)
Definition is_great (c : Ctx.t) : bool :=
  let secondBestAfterWhite := second_or0 c in
  let secondBestAfterMover := secondBestAfterWhite * Ctx.moverMultiplier c in
  let prevEvalWhite := value (Ctx.previousEvaluation c) in
  let prevMateInWhite := mateIn (Ctx.previousEvaluation c) in
  let prevEvalMover := prevEvalWhite * Ctx.prevMoverMultiplier c in
  let prevMateInMover := opt_mul prevMateInWhite (Ctx.prevMoverMultiplier c) in
  let prevWinProb := getWinningChance prevEvalMover prevMateInMover in
  let onlyGoodMove :=
    Rlt_b secondBestAfterMover (-200) && Rle_b (-100) (Ctx.bestAfterMover c) in
  let wasLosing := Rle_b prevWinProb 0.15 in
  let nowEqual :=
    Rle_b (Rabs (Ctx.playedAfterMover c)) 50
    && match Ctx.playedMateInMover c with None => true | Some _ => false end in
  let wasEqual :=
    Rle_b (Rabs prevEvalMover) 50
    && match prevMateInMover with None => true | Some _ => false end in
  let nowWinning :=
    Rle_b 150 (Ctx.playedAfterMover c)
    || match Ctx.playedMateInMover c with Some m => Rlt_b 0 m | None => false end in
  let isTurningPoint :=
    (wasLosing && nowEqual) || (wasEqual && nowWinning) || (wasLosing && nowWinning) in
  let opponentBlundered :=
    match classification (Ctx.lastPosition c) with Some BLUNDER => true | _ => false end in
  let significantGap :=
    Rle_b 200 (Rabs (Ctx.bestAfterWhite c - secondBestAfterWhite)) in
  onlyGoodMove || isTurningPoint || (opponentBlundered && significantGap).

(** Lines 500-510: the conditions checked before the sacrifice search. *)
Definition winningAnyways (c : Ctx.t) : bool :=
  let secondBestAfterMover := second_or0 c * Ctx.moverMultiplier c in
  (match Ctx.bestMateInMover c with
   | Some m => Rlt_b 0 m && Rle_b 300 secondBestAfterMover
   | None => false
   end)
  || (match Ctx.bestMateInMover c with None => true | Some _ => false end
      && Rle_b 300 (Ctx.bestAfterMover c) && Rle_b 300 secondBestAfterMover).

Definition brilliant_gate (c : Ctx.t) : bool :=
  Rle_b 0 (Ctx.playedAfterMover c) && negb (winningAnyways c)
  && negb (includes (san (move (Ctx.position c))) "=").

(** Lines 498-633: the BRILLIANT upgrade of a move still classified BEST. *)
Definition brilliant_step (B : Board) (c : Ctx.t) : Classification :=
  if brilliant_gate c then
    if isCheck B (fen (Ctx.lastPosition c)) then BEST
    else if sacrifice B (fen (Ctx.lastPosition c)) (fen (Ctx.position c))
              (uci (move (Ctx.position c))) (Ctx.moveColor c)
    then BRILLIANT else BEST
  else BEST.

(** Lines 636-647: the two BLUNDER demotions. *)
Definition demote (c : Ctx.t) (cl : Classification) : Classification :=
  let cl := if Classification_eqb cl BLUNDER && Rle_b 600 (Ctx.playedAfterMover c)
            then GOOD else cl in
  if Classification_eqb cl BLUNDER && Rle_b (Ctx.bestAfterMover c) (-600)
  then GOOD else cl.

(** [x ??= d] *)
Definition nullish_assign {A} (x : option A) (d : A) : option A :=
  match x with Some v => Some v | None => Some d end.

(** Lines 422-649: the verdict of a move that is neither skipped nor FORCED. *)
Definition verdict (B : Board) (c : Ctx.t) : Classification :=
  let c1 := base_classification c in
  let c2 := if Classification_eqb c1 BEST then (if is_great c then GREAT else BEST) else c1 in
  let c3 := if Classification_eqb c2 BEST then brilliant_step B c else c2 in
  demote c c3.

(** One iteration of the loop of lines 303-651. *)
Definition classify_step (B : Board) (lastPosition position : EvaluatedPosition)
  : EvaluatedPosition :=
  match make_ctx B lastPosition position with
  | None => position
  | Some c =>
      let p := store c in
      if is_forced B c then set_classification p (Some FORCED)
      else set_classification p (nullish_assign (Some (verdict B c)) BOOK)
  end.

(** The loop visits [positions.slice(1)]; [positions[positionIndex - 1]] is
    the element already updated by the previous iteration. *)
Fixpoint classify_from (B : Board) (last : EvaluatedPosition)
  (rest : list EvaluatedPosition) : list EvaluatedPosition :=
  match rest with
  | [] => []
  | p :: rest' => let p' := classify_step B last p in p' :: classify_from B p' rest'
  end.

Definition classify_pass (B : Board) (positions : list EvaluatedPosition) :=
  match positions with
  | [] => []
  | p0 :: rest => p0 :: classify_from B p0 rest
  end.

(* ------------------------------------------------------------------------- *)
(** * analysis.ts: openings, book overlay, accuracy *)

(** [openings.find(opening => position.fen.includes(opening.fen))?.name] *)
Definition openingOf (B : Board) (f : string) : option string :=
  option_map snd (find (fun o => includes f (fst o)) (openings B)).

Definition opening_pass (B : Board) (positions : list EvaluatedPosition) :=
  map (fun p => set_opening p (openingOf B (fen p))) positions.

(** Lines 662-676; [bookEnded] is the flag of the loop. *)
Fixpoint book_overlay_loop (bookEnded : bool) (ps : list EvaluatedPosition) :=
  match ps with
  | [] => []
  | p :: ps' =>
      if bookEnded then ps
      else
        let EPL := or0 (EPL p) in
        if truthy_str (opening p) && Rlt_b EPL 0.01
        then set_classification p (Some BOOK) :: book_overlay_loop false ps'
        else p :: book_overlay_loop true ps'
  end.

Definition book_overlay (positions : list EvaluatedPosition) :=
  match positions with
  | [] => []
  | p0 :: rest => p0 :: book_overlay_loop false rest
  end.

(** Lines 739-764: the accuracy contribution of one move. *)
Definition leniencyFactor (p : EvaluatedPosition) : R :=
  let moverMultiplier := multiplier (mover_of (fen p)) in
  let prevMoverMultiplier := - moverMultiplier in
  let prevEvalWhite := or0 (prevEvalWhite p) in
  let prevMateInWhite := prevMateInWhite p in
  let prevEvalMover := prevEvalWhite * prevMoverMultiplier in
  let prevMateInMover := opt_mul prevMateInWhite prevMoverMultiplier in
  let prevWinProb := getWinningChance prevEvalMover prevMateInMover in
  let wasAlreadyLosing := Rle_b prevWinProb 0.15 in
  if wasAlreadyLosing then 0.7 else 1.0.

Definition moveAccuracy (p : EvaluatedPosition) : R :=
  let EPL := or0 (EPL p) in
  Rmax 0 (Rmin 100 (100 - EPL * 100 * leniencyFactor p)).

(** [classification !== BOOK && classification !== FORCED] *)
Definition contributes (p : EvaluatedPosition) : bool :=
  match classification p with
  | Some BOOK | Some FORCED => false
  | _ => true
  end.

Record Accuracies := mkAcc {
  white_current : R; white_maximum : R;
  black_current : R; black_maximum : R
}.

Definition acc0 : Accuracies := mkAcc 0 0 0 0.

Definition add_move (a : Accuracies) (col : Color) (x : R) : Accuracies :=
  match col with
  | white => mkAcc (white_current a + x) (white_maximum a + 100)
               (black_current a) (black_maximum a)
  | black => mkAcc (white_current a) (white_maximum a)
               (black_current a + x) (black_maximum a + 100)
  end.

(** Lines 738-771 over [positions.slice(1)]. *)
Fixpoint accuracy_loop (ps : list EvaluatedPosition) (a : Accuracies) : Accuracies :=
  match ps with
  | [] => a
  | p :: ps' =>
      let a' := if contributes p then add_move a (mover_of (fen p)) (moveAccuracy p) else a in
      accuracy_loop ps' a'
  end.

(** Lines 776-777. *)
Definition final_accuracy (current maximum : R) : R :=
  if Rlt_b 0 maximum then current / maximum * 100 else 100.

Record Report := mkReport {
  accuracy_white : R;
  accuracy_black : R;
  positions : list EvaluatedPosition
}.

(** analyse.  The SAN pass of lines 680-696 writes only [moveSAN], a display
    string that no claim reads, and the per-side tallies are not modelled. *)
Definition analyse (B : Board) (ps : list EvaluatedPosition) : Report :=
  let ps1 := classify_pass B ps in
  let ps2 := opening_pass B ps1 in
  let ps3 := book_overlay ps2 in
  let a := accuracy_loop (tl ps3) acc0 in
  mkReport (final_accuracy (white_current a) (white_maximum a))
           (final_accuracy (black_current a) (black_maximum a))
           ps3.

(* ------------------------------------------------------------------------- *)
(** * getWinningChance and getCentipawns in double precision *)

Module Float64.
Import Stdlib.Floats.Floats.
Local Open Scope float_scope.

(** [10^n] as a double; exact for [n <= 22] (10^22 < 2^53 * 2^22). *)
Fixpoint fpow10 (n : nat) : float :=
  match n with O => 1 | S k => 10 * fpow10 k end.

(** [Math.pow(10, y)] at an integral exponent with |y| <= 22, where 10^|y| is
    exact and its reciprocal is the correctly rounded 10^y; other exponents
    are outside this reading ([None]). *)
Fixpoint pow10_int (y : float) (n : nat) : option float :=
  match n with
  | O => if y =? 0 then Some 1 else None
  | S k =>
      let fn := of_uint63 (Uint63.of_Z (Z.of_nat n)) in
      if y =? fn then Some (fpow10 n)
      else if y =? - fn then Some (1 / fpow10 n)
      else pow10_int y k
  end.

Definition Math_pow10 (y : float) : option float := pow10_int y 22.

(** getWinningChance *)
Definition getWinningChance (centipawns : float) (mateIn : option float) : option float :=
  match mateIn with
  | Some m => Some (if 0 <? m then 0.999 else 0.001)
  | None => option_map (fun q => 1 / (1 + q)) (Math_pow10 (- centipawns / 400))
  end.

(** Results of getCentipawns; the finite branch keeps the argument of
    [Math.log10] and stands for [-400 * Math.log10(arg)]. *)
Inductive Centipawns := NegInfinity | PosInfinity | MinusFourHundredLog10 (arg : float).

(** getCentipawns *)
Definition getCentipawns (chance : float) : Centipawns :=
  if chance <=? 0 then NegInfinity
  else if 1 <=? chance then PosInfinity
  else MinusFourHundredLog10 (1 / chance - 1).

(** getWinPercentageLoss *)
Definition getWinPercentageLoss (prevCp newCp : float) : option float :=
  match getWinningChance prevCp None, getWinningChance newCp None with
  | Some prevChance, Some newChance => Some ((prevChance - newChance) * 100)
  | _, _ => None
  end.

(** getEPL *)
Definition getEPL (bestPostCp actualPostCp : float) (bestMateIn actualMateIn : option float)
  : option float :=
  match getWinningChance bestPostCp bestMateIn, getWinningChance actualPostCp actualMateIn with
  | Some bestChance, Some actualChance => Some (bestChance - actualChance)
  | _, _ => None
  end.

End Float64.

(* ------------------------------------------------------------------------- *)
(** * The win-probability functions with double rounding

    The functions above compute in exact real arithmetic; JavaScript computes
    in doubles.  There every arithmetic result is rounded to a double, and
    [Math.pow] and [Math.log10] return a double or an infinity.  A
    [DoubleOps] gathers the rounding [rnd] of an exact result and the two
    library functions, whose infinities are [PosInf] and [NegInf].
    [RoundsToNearest] lists what these readings use of IEEE round-to-nearest:
    it is monotone and odd, and it keeps the doubles 1, 2, 100 and 1/2.
    [Math.pow(10, y)] is assumed non-decreasing in y, never negative, and 1
    at 0.  [Math.log10] is assumed non-decreasing on non-negative arguments.
    ECMAScript leaves both functions implementation-approximated, so their
    monotonicity is an assumption about the engine. *)
Record DoubleOps := {
  rnd : R -> R;
  mathPow10 : R -> ExtR;
  mathLog10 : R -> ExtR
}.

Record RoundsToNearest (d : DoubleOps) : Prop := {
  rnd_mono : forall x y, x <= y -> rnd d x <= rnd d y;
  rnd_opp : forall x, rnd d (- x) = - rnd d x;
  rnd_1 : rnd d 1 = 1;
  rnd_2 : rnd d 2 = 2;
  rnd_100 : rnd d 100 = 100;
  rnd_half : rnd d (1 / 2) = 1 / 2;
  pow_mono : forall y z, y <= z -> ExtR_le (mathPow10 d y) (mathPow10 d z);
  pow_nonneg : forall y, ExtR_le (Fin 0) (mathPow10 d y);
  pow_0 : mathPow10 d 0 = Fin 1;
  log_mono : forall a b, 0 <= a -> a <= b -> ExtR_le (mathLog10 d a) (mathLog10 d b)
}.

(** getWinningChance: [-centipawns / 400], [Math.pow], [1 + q] and the
    division are each rounded; [1 / (1 + Infinity)] is 0 (the [NegInf]
    case does not arise, [Math.pow] being non-negative). *)
Definition getWinningChanceD (d : DoubleOps) (centipawns : R) (mateIn : option R) : R :=
  match mateIn with
  | Some m => getMateWinProbability m
  | None =>
      match mathPow10 d (rnd d (- centipawns / 400)) with
      | Fin q => rnd d (1 / rnd d (1 + q))
      | _ => 0
      end
  end.

(** [-400 * l] for the value [l] of [Math.log10]. *)
Definition minusFourHundredTimes (d : DoubleOps) (l : ExtR) : ExtR :=
  match l with
  | NegInf => PosInf
  | Fin v => Fin (rnd d (-400 * v))
  | PosInf => NegInf
  end.

(** getCentipawns *)
Definition getCentipawnsD (d : DoubleOps) (chance : R) : ExtR :=
  if Rle_b chance 0 then NegInf
  else if Rle_b 1 chance then PosInf
  else minusFourHundredTimes d (mathLog10 d (rnd d (rnd d (1 / chance) - 1))).

(* ========================================================================= *)
(** * Facts about the win-probability model *)

Lemma pow10_pos y : 0 < pow10 y.
Proof. unfold pow10, Rpower. apply exp_pos. Qed.

Lemma ln10_pos : 0 < ln 10.
Proof. rewrite <- ln_1. apply ln_increasing; lra. Qed.

Lemma pow10_0 : pow10 0 = 1.
Proof. unfold pow10. apply Rpower_O. lra. Qed.

Lemma pow10_m1 : pow10 (-1) = / 10.
Proof.
  unfold pow10. replace (-1) with (Ropp 1) by ring.
  rewrite Rpower_Ropp, Rpower_1; lra.
Qed.

Lemma pow10_antimono x y : x <= y -> pow10 x <= pow10 y.
Proof. intro H. unfold pow10. apply Rle_Rpower; lra. Qed.

Lemma wp_cp_bounds x : 0 < getWinningChance x None < 1.
Proof.
  simpl. pose proof (pow10_pos (- x / 400)).
  split.
  - apply Rdiv_lt_0_compat; lra.
  - apply (Rmult_lt_reg_r (1 + pow10 (- x / 400))); [lra|].
    field_simplify; lra.
Qed.

Lemma wp_0 : getWinningChance 0 None = 1 / 2.
Proof.
  simpl. replace (Ropp 0 / 400) with 0 by field. rewrite pow10_0. field.
Qed.

Lemma wp_400 : getWinningChance 400 None = 10 / 11.
Proof.
  simpl. replace (Ropp 400 / 400) with (-1) by field. rewrite pow10_m1. field.
Qed.

Lemma wp_pos_gt_half x : 0 < x -> 1 / 2 < getWinningChance x None.
Proof.
  intro Hx. simpl.
  assert (Hp : pow10 (- x / 400) < 1).
  { unfold pow10, Rpower. rewrite <- exp_0. apply exp_increasing.
    pose proof ln10_pos. apply Ropp_lt_cancel.
    replace (- (- x / 400 * ln 10)) with (x / 400 * ln 10) by field.
    rewrite Ropp_0. apply Rmult_lt_0_compat; lra. }
  pose proof (pow10_pos (- x / 400)).
  apply (Rmult_lt_reg_r (2 * (1 + pow10 (- x / 400)))); [lra|].
  field_simplify; lra.
Qed.

Lemma ExtR_le_PosInf a : ExtR_le a PosInf.
Proof. destruct a; exact I. Qed.

(** Exact real arithmetic, the reading of the functions above, is one
    [DoubleOps] with these properties. *)
Definition exactOps : DoubleOps :=
  {| rnd := fun x => x;
     mathPow10 := fun y => Fin (pow10 y);
     mathLog10 := fun a => if Rle_b a 0 then NegInf else Fin (log10 a) |}.

Lemma exactOps_rounds : RoundsToNearest exactOps.
Proof.
  split; cbn; intros; try lra.
  - apply pow10_antimono. assumption.
  - pose proof (pow10_pos y). lra.
  - apply f_equal, pow10_0.
  - destruct (Rle_b a 0) eqn:Ea; [exact I|].
    apply Rle_b_false_iff in Ea. rcmp. cbn.
    unfold log10. pose proof ln10_pos. unfold Rdiv.
    apply Rmult_le_compat_r; [left; apply Rinv_0_lt_compat; lra|].
    destruct (Req_dec a b) as [->|Hne]; [lra|].
    left. apply ln_increasing; lra.
Qed.

Section DoubleFacts.
Variable d : DoubleOps.
Hypothesis H : RoundsToNearest d.

Lemma rnd_0 : rnd d 0 = 0.
Proof. pose proof (rnd_opp d H 0) as E. rewrite Ropp_0 in E. lra. Qed.

Lemma rnd_nonneg x : 0 <= x -> 0 <= rnd d x.
Proof. intro Hx. rewrite <- rnd_0. apply (rnd_mono d H). exact Hx. Qed.

Lemma rnd_nonpos x : x <= 0 -> rnd d x <= 0.
Proof. intro Hx. rewrite <- rnd_0. apply (rnd_mono d H). exact Hx. Qed.

Lemma rnd_range x c : rnd d c = c -> - c <= x <= c -> - c <= rnd d x <= c.
Proof.
  intros Hc Hx. rewrite <- Hc at 2. rewrite <- Hc, <- (rnd_opp d H).
  split; apply (rnd_mono d H); lra.
Qed.

Lemma one_le_inv x : 0 < x <= 1 -> 1 <= 1 / x.
Proof.
  intro Hx. unfold Rdiv. rewrite Rmult_1_l, <- Rinv_1.
  apply Rinv_le_contravar; lra.
Qed.

Lemma inv_le_1 a : 1 <= a -> 1 / a <= 1.
Proof.
  intro Ha. unfold Rdiv. rewrite Rmult_1_l, <- Rinv_1.
  apply Rinv_le_contravar; lra.
Qed.

Lemma rnd_ge_1 x : 1 <= x -> 1 <= rnd d x.
Proof. intro Hx. rewrite <- (rnd_1 d H). apply (rnd_mono d H). exact Hx. Qed.

Lemma wpD_range x m : 0 <= getWinningChanceD d x m <= 1.
Proof.
  destruct m as [m|]; cbn [getWinningChanceD].
  - unfold getMateWinProbability. destruct (Rlt_b 0 m); lra.
  - pose proof (pow_nonneg d H (rnd d (- x / 400))) as P.
    destruct (mathPow10 d (rnd d (- x / 400))) as [|q|]; cbn in P; [contradiction| |lra].
    pose proof (rnd_ge_1 (1 + q) ltac:(lra)) as A.
    split.
    + apply rnd_nonneg. unfold Rdiv. rewrite Rmult_1_l.
      left. apply Rinv_0_lt_compat. lra.
    + apply Rle_trans with (rnd d 1); [|rewrite (rnd_1 d H); lra].
      apply (rnd_mono d H). apply inv_le_1. exact A.
Qed.

Lemma wpD_mono x y : x <= y -> getWinningChanceD d x None <= getWinningChanceD d y None.
Proof.
  intro Hxy. pose proof (wpD_range y None) as Ry. cbn [getWinningChanceD] in *.
  assert (Ha : rnd d (- y / 400) <= rnd d (- x / 400)) by (apply (rnd_mono d H); lra).
  pose proof (pow_mono d H _ _ Ha) as M.
  pose proof (pow_nonneg d H (rnd d (- y / 400))) as Py.
  pose proof (pow_nonneg d H (rnd d (- x / 400))) as Px.
  set (px := mathPow10 d (rnd d (- x / 400))) in *.
  set (py := mathPow10 d (rnd d (- y / 400))) in *.
  clearbody px py.
  destruct px as [|qx|]; cbn in Px; [contradiction| |lra].
  destruct py as [|qy|]; cbn in Py, M; [contradiction| |contradiction].
  apply (rnd_mono d H).
  pose proof (rnd_ge_1 (1 + qy) ltac:(lra)) as Ay.
  assert (Axy : rnd d (1 + qy) <= rnd d (1 + qx)) by (apply (rnd_mono d H); lra).
  unfold Rdiv. rewrite !Rmult_1_l. apply Rinv_le_contravar; lra.
Qed.


Lemma minusFourHundredTimes_anti l1 l2 :
  ExtR_le l1 l2 -> ExtR_le (minusFourHundredTimes d l2) (minusFourHundredTimes d l1).
Proof.
  destruct l1, l2; cbn; intro E; try contradiction; try exact I.
  apply (rnd_mono d H). lra.
Qed.

Lemma getCentipawnsD_low p : p <= 0 -> getCentipawnsD d p = NegInf.
Proof. intro Hp. unfold getCentipawnsD. rcmp. reflexivity. Qed.

Lemma getCentipawnsD_high p : 1 <= p -> getCentipawnsD d p = PosInf.
Proof. intro Hp. unfold getCentipawnsD. rcmp. reflexivity. Qed.

Lemma getCentipawnsD_mono p q : p <= q -> ExtR_le (getCentipawnsD d p) (getCentipawnsD d q).
Proof.
  intro Hpq.
  destruct (Rle_lt_dec p 0) as [Hp0|Hp0].
  { rewrite (getCentipawnsD_low p Hp0). exact I. }
  destruct (Rle_lt_dec 1 q) as [Hq1|Hq1].
  { rewrite (getCentipawnsD_high q Hq1). apply ExtR_le_PosInf. }
  unfold getCentipawnsD. rcmp.
  apply minusFourHundredTimes_anti. apply (log_mono d H).
  - apply rnd_nonneg. pose proof (rnd_ge_1 (1 / q) (one_le_inv q ltac:(lra))). lra.
  - apply (rnd_mono d H).
    assert (rnd d (1 / q) <= rnd d (1 / p)); [|lra].
    apply (rnd_mono d H). unfold Rdiv. rewrite !Rmult_1_l.
    apply Rinv_le_contravar; lra.
Qed.

End DoubleFacts.

(* ========================================================================= *)
(** * Claims about classification.ts *)

(** C9: [getWinningChance] returns 0.999 for every positive mate distance and
    0.001 for every negative one, whatever the centipawn value and the size of
    the distance; without a mate distance it returns
    [1 / (1 + 10^(-value/400))]. *)
Theorem getWinningChance_mate_saturates :
  (forall (x m : R), 0 < m -> getWinningChance x (Some m) = 0.999) /\
  (forall (x m : R), m < 0 -> getWinningChance x (Some m) = 0.001) /\
  (forall x : R, getWinningChance x None = 1 / (1 + Rpower 10 (- x / 400))).
Proof.
  split; [|split].
  - intros x m Hm. simpl. unfold getMateWinProbability. rcmp. reflexivity.
  - intros x m Hm. simpl. unfold getMateWinProbability. rcmp. reflexivity.
  - intro x. reflexivity.
Qed.

Module WinningChanceDoubles.
Import Stdlib.Floats.Floats.



End WinningChanceDoubles.

Module Float64Roundtrip.
Import Stdlib.Floats.Floats.


End Float64Roundtrip.

(** C2 counterexample: with both move strings empty (equal, but falsy) the
    equality guard is skipped, and the miss rules fire. *)
Lemma shouldBeMiss_equal_empty_moves :
  shouldBeMiss 400 100 0 None None None (Some EmptyString) (Some EmptyString) = true.
Proof.
  unfold shouldBeMiss, getEPL. simpl truthy_str. simpl andb. cbv zeta.
  rewrite wp_400, wp_0. rcmp. simpl negb. cbv iota.
  rewrite Rabs_pos_eq by lra. rcmp. reflexivity.
Qed.

Lemma move_guard_spec (a b : option string) :
  truthy_str a && truthy_str b && opt_str_eqb a b = true <->
  exists u, a = Some u /\ b = Some u /\ u <> EmptyString.
Proof.
  split.
  - destruct a as [a|], b as [b|]; simpl; intro H; try discriminate.
    + apply andb_true_iff in H as [H H3]. apply andb_true_iff in H as [H1 _].
      apply String.eqb_eq in H3. subst b. exists a.
      split; [reflexivity|split; [reflexivity|]].
      intro E. subst a. discriminate.
    + rewrite andb_false_r in H. discriminate.
  - intros [u [Ha [Hb Hu]]]. subst a b. simpl.
    rewrite String.eqb_refl.
    destruct (String.eqb u EmptyString) eqn:E.
    + apply String.eqb_eq in E. contradiction.
    + reflexivity.
Qed.

Lemma tactical_spec (b : R) (bm : option R) :
  Rle_b 300 b || match bm with Some m => Rlt_b 0 m && Rle_b m 5 | None => false end = true
  <-> 300 <= b \/ exists m, bm = Some m /\ 0 < m <= 5.
Proof.
  rewrite orb_true_iff, Rle_b_spec. destruct bm as [m|].
  - rewrite andb_true_iff, Rlt_b_spec, Rle_b_spec. split.
    + intros [H|H]; [left; exact H | right; exists m; split; [reflexivity | lra]].
    + intros [H|[m' [E H]]]; [left; exact H | right; injection E as ->; lra].
  - split.
    + intros [H|H]; [left; exact H | discriminate].
    + intros [H|[m' [E _]]]; [left; exact H | discriminate].
Qed.

(** C2 (amended): [shouldBeMiss] is true exactly when the equality guard does
    not apply (it applies only to two present, non-empty, equal move
    strings), EPL >= 0.10, the best move is tactical, the tactical gap
    (|bestMate - secondMate| * 100, 500, or |best - second|) is >= 200, and
    the eval loss ((bestMate - playedMate) * 100, 500, or best - played) is
    >= 150.  In particular two equal non-empty move strings give false. *)
Theorem shouldBeMiss_rules :
  (forall (b s p : R) (bm sm pm : option R) (played best : option string),
    shouldBeMiss b s p bm sm pm played best = true <->
    ~ (exists u, played = Some u /\ best = Some u /\ u <> EmptyString) /\
    0.10 <= getEPL b p bm pm /\
    (300 <= b \/ exists m, bm = Some m /\ 0 < m <= 5) /\
    200 <= match bm, sm with
           | Some x, Some y => Rabs (x - y) * 100
           | Some _, None => 500
           | None, _ => Rabs (b - s)
           end /\
    150 <= match bm, pm with
           | Some x, Some y => (x - y) * 100
           | Some _, None => 500
           | None, _ => b - p
           end) /\
  (forall (b s p : R) (bm sm pm : option R) (u : string),
    u <> EmptyString -> shouldBeMiss b s p bm sm pm (Some u) (Some u) = false).
Proof.
  split.
  - intros b s p bm sm pm played best. unfold shouldBeMiss. cbv zeta.
    destruct (truthy_str played && truthy_str best && opt_str_eqb played best) eqn:G.
    + split; [discriminate|]. intros [Hn _]. apply move_guard_spec in G. contradiction.
    + assert (Hg : ~ (exists u, played = Some u /\ best = Some u /\ u <> EmptyString)).
      { intro H. apply move_guard_spec in H. congruence. }
      destruct (Rlt_b (getEPL b p bm pm) 0.10) eqn:E1.
      { apply Rlt_b_spec in E1. split; [discriminate|]. intros (_ & H & _). lra. }
      apply Rlt_b_false_iff in E1.
      destruct (Rle_b 300 b || match bm with Some m => Rlt_b 0 m && Rle_b m 5 | None => false end)
        eqn:E2; simpl negb; cbv iota.
      2: { split; [discriminate|]. intros (_ & _ & H & _).
           apply tactical_spec in H. congruence. }
      apply tactical_spec in E2.
      match goal with |- context [Rlt_b ?g 200] => destruct (Rlt_b g 200) eqn:E3 end.
      { apply Rlt_b_spec in E3. split; [discriminate|]. intros (_ & _ & _ & H & _). lra. }
      apply Rlt_b_false_iff in E3.
      rewrite Rle_b_spec. tauto.
  - intros b s p bm sm pm u Hu. unfold shouldBeMiss.
    replace (truthy_str (Some u) && truthy_str (Some u) && opt_str_eqb (Some u) (Some u))
      with true; [reflexivity|].
    symmetry. apply move_guard_spec. exists u. auto.
Qed.

(* ========================================================================= *)
(** * Claims about one iteration of the classification loop *)

Lemma classify_step_some B last p c :
  make_ctx B last p = Some c ->
  classify_step B last p =
  set_classification (store c) (Some (if is_forced B c then FORCED else verdict B c)).
Proof. intro H. unfold classify_step. rewrite H. destruct (is_forced B c); reflexivity. Qed.

Lemma classify_step_none B last p :
  make_ctx B last p = None -> classify_step B last p = p.
Proof. intro H. unfold classify_step. rewrite H. reflexivity. Qed.

(** The white-relative evaluations and mate distances a position carries. *)
Definition stored_evals (p : EvaluatedPosition) :=
  (bestAfterWhite p, playedAfterWhite p, bestMateInWhite p,
   playedMateInWhite p, prevEvalWhite p, prevMateInWhite p).

Lemma make_ctx_some B last p top :
  find_line 1 (topLines last) = Some top ->
  exists c, make_ctx B last p = Some c /\
    Ctx.topMove c = top /\ Ctx.previousEvaluation c = evaluation top /\
    Ctx.bestAfterWhite c = value (evaluation top) /\
    Ctx.bestMateInWhite c = mateIn (evaluation top) /\
    match find_line 1 (topLines p) with
    | Some l => Ctx.playedAfterWhite c = value (evaluation l) /\
                Ctx.playedMateInWhite c = mateIn (evaluation l) /\
                Ctx.lines c = topLines p
    | None => Ctx.playedAfterWhite c = 0 /\ Ctx.playedMateInWhite c = None /\
              exists t, Ctx.lines c = topLines p ++ [mkLine 1 0 (mkEval t 0 None) EmptyString]
    end.
Proof.
  intro H. unfold make_ctx. rewrite H. simpl.
  destruct (find_line 1 (topLines p)) as [l|]; simpl.
  - eexists; split; [reflexivity|]. simpl. repeat split.
  - eexists; split; [reflexivity|]. simpl. repeat split. eexists; reflexivity.
Qed.

Lemma make_ctx_none B last p :
  find_line 1 (topLines last) = None -> make_ctx B last p = None.
Proof. intro H. unfold make_ctx. rewrite H. reflexivity. Qed.

Lemma classify_step_stored B last p top :
  find_line 1 (topLines last) = Some top ->
  let q := classify_step B last p in
  bestAfterWhite q = Some (value (evaluation top)) /\
  bestMateInWhite q = mateIn (evaluation top) /\
  prevEvalWhite q = Some (value (evaluation top)) /\
  prevMateInWhite q = mateIn (evaluation top) /\
  match find_line 1 (topLines p) with
  | Some l => playedAfterWhite q = Some (value (evaluation l)) /\
              playedMateInWhite q = mateIn (evaluation l) /\ topLines q = topLines p
  | None => playedAfterWhite q = Some 0 /\ playedMateInWhite q = None /\
            exists t, topLines q = topLines p ++ [mkLine 1 0 (mkEval t 0 None) EmptyString]
  end.
Proof.
  intros H q. destruct (make_ctx_some B last p top H) as (c & Hc & Ht & Hpe & Hb & Hbm & Hl).
  subst q. rewrite (classify_step_some B last p c Hc). simpl.
  rewrite Hb, Hbm, Hpe.
  destruct (find_line 1 (topLines p)); destruct Hl as (Hpa & Hpm & Hlines);
    rewrite Hpa, Hpm; repeat split; auto.
Qed.

Lemma book_overlay_loop_keeps (f : EvaluatedPosition -> (option R * option R * option R * option R * option R * option R) * list EngineLine)
  (Hf : forall p c, f (set_classification p c) = f p) :
  forall b ps, map f (book_overlay_loop b ps) = map f ps.
Proof.
  intros b ps. revert b. induction ps as [|p ps IH]; intro b; simpl; [reflexivity|].
  destruct b; [reflexivity|].
  destruct (truthy_str (opening p) && Rlt_b (or0 (EPL p)) 0.01); simpl;
    rewrite IH; try rewrite Hf; reflexivity.
Qed.

Lemma analyse_keeps_stored B ps :
  map (fun p => (stored_evals p, topLines p)) (positions (analyse B ps))
  = map (fun p => (stored_evals p, topLines p)) (classify_pass B ps).
Proof.
  unfold analyse. simpl. unfold book_overlay, opening_pass.
  destruct (classify_pass B ps) as [|p0 rest]; simpl; [reflexivity|].
  f_equal. rewrite book_overlay_loop_keeps by reflexivity.
  rewrite map_map. reflexivity.
Qed.

(** C3: the classification step stores on the position exactly the
    white-relative engine values (PV1 of the previous position, PV1 of the
    current one, or 0 and no mate for a synthesized terminal line) and only
    appends a zero-valued line to [topLines]; hence the stored values do not
    depend on the side to move: two plies with the same engine lines store
    the same values, whatever their FEN, move, board or classification; the
    later passes of analyse change neither these values nor [topLines]. *)
Theorem stored_evals_white_relative :
  (forall B last p top, find_line 1 (topLines last) = Some top ->
    let q := classify_step B last p in
    bestAfterWhite q = Some (value (evaluation top)) /\
    bestMateInWhite q = mateIn (evaluation top) /\
    prevEvalWhite q = Some (value (evaluation top)) /\
    prevMateInWhite q = mateIn (evaluation top) /\
    match find_line 1 (topLines p) with
    | Some l => playedAfterWhite q = Some (value (evaluation l)) /\
                playedMateInWhite q = mateIn (evaluation l) /\ topLines q = topLines p
    | None => playedAfterWhite q = Some 0 /\ playedMateInWhite q = None /\
              exists t, topLines q = topLines p ++ [mkLine 1 0 (mkEval t 0 None) EmptyString]
    end) /\
  (forall B B' last last' p p',
    topLines last = topLines last' -> topLines p = topLines p' ->
    stored_evals p = stored_evals p' ->
    stored_evals (classify_step B last p) = stored_evals (classify_step B' last' p')) /\
  (forall B ps,
    map (fun p => (stored_evals p, topLines p)) (positions (analyse B ps))
    = map (fun p => (stored_evals p, topLines p)) (classify_pass B ps)).
Proof.
  split; [|split; [|exact analyse_keeps_stored]].
  - exact classify_step_stored.
  - intros B B' last last' p p' Hl Hp Hs.
    destruct (find_line 1 (topLines last)) as [top|] eqn:Ht.
    + assert (Ht' : find_line 1 (topLines last') = Some top) by (rewrite <- Hl; exact Ht).
      pose proof (classify_step_stored B last p top Ht) as (A1 & A2 & A3 & A4 & A5).
      pose proof (classify_step_stored B' last' p' top Ht') as (B1 & B2 & B3 & B4 & B5).
      unfold stored_evals. rewrite A1, A2, A3, A4, B1, B2, B3, B4.
      rewrite <- Hp in B5.
      destruct (find_line 1 (topLines p));
        destruct A5 as (-> & -> & _); destruct B5 as (-> & -> & _); reflexivity.
    + assert (Ht' : find_line 1 (topLines last') = None) by (rewrite <- Hl; exact Ht).
      rewrite (classify_step_none B last p (make_ctx_none B last p Ht)).
      rewrite (classify_step_none B' last' p' (make_ctx_none B' last' p' Ht')).
      exact Hs.
Qed.

(* ========================================================================= *)
(** * Evaluation tactics for concrete inputs *)

Lemma wp_neg_lt_half x : x < 0 -> getWinningChance x None < 1 / 2.
Proof.
  intro Hx. simpl.
  assert (Hp : 1 < pow10 (- x / 400)).
  { unfold pow10, Rpower. rewrite <- exp_0. apply exp_increasing.
    pose proof ln10_pos. apply Rmult_lt_0_compat; lra. }
  apply (Rmult_lt_reg_r (2 * (1 + pow10 (- x / 400)))); [lra|].
  field_simplify; lra.
Qed.

Lemma wp_zero_eq x : x = 0 -> getWinningChance x None = 1 / 2.
Proof. intros ->. exact wp_0. Qed.

Ltac wp_facts :=
  repeat match goal with
  | |- context [getWinningChance ?x None] =>
      lazymatch goal with
      | _ : 0 < getWinningChance x None < 1 |- _ => fail
      | _ => pose proof (wp_cp_bounds x);
             first [ pose proof (wp_pos_gt_half x ltac:(lra))
                   | pose proof (wp_neg_lt_half x ltac:(lra))
                   | pose proof (wp_zero_eq x ltac:(lra))
                   | idtac ]
      end
  end.

Ltac rabs :=
  repeat match goal with
  | |- context [Rabs ?x] =>
      first [ rewrite (Rabs_right x) by lra | rewrite (Rabs_left x) by lra ]
  end.

Ltac mate_wp :=
  repeat match goal with
  | |- context [getWinningChance ?x (Some ?m)] =>
      change (getWinningChance x (Some m)) with (getMateWinProbability m);
      unfold getMateWinProbability
  end.

(** Evaluates the real-number tests of a concrete run. *)
Ltac decide_reals := mate_wp; wp_facts; rabs; rcmp.

Ltac ev := cbn -[IZR Rle_b Rlt_b getWinningChance Rabs Rmult Rplus Ropp Rminus Rdiv Rinv].
Ltac crunch := repeat (ev; decide_reals).

(* ========================================================================= *)
(** * Concrete inputs *)

(** A position as useStockfishAnalysis hands it to analyse. *)
Definition fresh (f u s : string) (ls : list EngineLine) : EvaluatedPosition :=
  mkPos f (mkMove u s) ls None None None None None None None None None.

Definition fen_start := "rnbqkbnr/pppppppp/8/8/8/8/PPPPPPPP/RNBQKBNR w KQkq - 0 1"%string.
Definition fen_d4 := "rnbqkbnr/pppppppp/8/8/3P4/8/PPP1PPPP/RNBQKBNR b KQkq - 0 1"%string.
Definition fen_e4 := "rnbqkbnr/pppppppp/8/8/4P3/8/PPPP1PPP/RNBQKBNR b KQkq - 0 1"%string.

(** A board on which every position has 20 legal moves and nobody is in
    check; the sacrifice search reports [sac]. *)
Definition board20 (sac : bool) : Board :=
  mkBoard (fun _ => 20%nat) (fun _ => false) (fun _ => false) (fun _ _ _ _ => sac) [].

(** The best move 1.e4 keeps +4.00; 1.d4 is played and, in this input, the
    engine line after it carries a mate distance of 0 with value 650. *)
Definition demo_last := fresh fen_start EmptyString EmptyString
  [mkLine 1 20 (mkEval cp 400 None) "e2e4"].
Definition demo_played (v : R) := fresh fen_d4 "d2d4" "d4"
  [mkLine 1 20 (mkEval mate v (Some 0)) "e7e5"].

(* ========================================================================= *)
(** * C4 *)

(** C4: when the tiers put a move at BLUNDER, the stored classification is
    GOOD if the played mover-relative eval is >= 600 or the best one is
    <= -600, and BLUNDER otherwise; so played eval 650 gives GOOD, and played
    eval 550 (with best above -600) stays BLUNDER. *)
Theorem blunder_demotion (B : Board) (last p : EvaluatedPosition) (c : Ctx.t)
  (Hc : make_ctx B last p = Some c) (Hf : is_forced B c = false)
  (Hb : base_classification c = BLUNDER) :
  ((600 <= Ctx.playedAfterMover c \/ Ctx.bestAfterMover c <= -600) ->
     classification (classify_step B last p) = Some GOOD) /\
  (Ctx.playedAfterMover c < 600 -> -600 < Ctx.bestAfterMover c ->
     classification (classify_step B last p) = Some BLUNDER) /\
  (Ctx.playedAfterMover c = 650 -> classification (classify_step B last p) = Some GOOD) /\
  (Ctx.playedAfterMover c = 550 -> -600 < Ctx.bestAfterMover c ->
     classification (classify_step B last p) = Some BLUNDER).
Proof.
  assert (K : classification (classify_step B last p) =
              Some (if Rle_b 600 (Ctx.playedAfterMover c)
                    then GOOD
                    else if Rle_b (Ctx.bestAfterMover c) (-600) then GOOD else BLUNDER)).
  { rewrite (classify_step_some B last p c Hc), Hf. simpl.
    unfold verdict, demote. rewrite Hb. simpl.
    destruct (Rle_b 600 (Ctx.playedAfterMover c)); reflexivity. }
  rewrite K. repeat split.
  - intros [H|H].
    + rewrite Rle_b_true by lra. reflexivity.
    + destruct (Rle_b 600 (Ctx.playedAfterMover c)); [reflexivity|].
      rewrite Rle_b_true by lra. reflexivity.
  - intros H1 H2. rewrite !Rle_b_false by lra. reflexivity.
  - intro H. rewrite Rle_b_true by lra. reflexivity.
  - intros H1 H2. rewrite !Rle_b_false by lra. reflexivity.
Qed.

Lemma demo_blunder_tier (v : R) :
  exists c, make_ctx (board20 false) demo_last (demo_played v) = Some c /\
            is_forced (board20 false) c = false /\ base_classification c = BLUNDER.
Proof.
  eexists. split; [reflexivity|]. split; [reflexivity|].
  unfold base_classification. crunch. unfold shouldBeMiss, getEPL. crunch.
  unfold epl_tier. crunch. reflexivity.
Qed.

(** C4 witness: the demo move with played eval 650 is demoted to GOOD, with
    played eval 550 it stays BLUNDER. *)
Lemma blunder_demotion_witness :
  classification (classify_step (board20 false) demo_last (demo_played 650)) = Some GOOD /\
  classification (classify_step (board20 false) demo_last (demo_played 550)) = Some BLUNDER.
Proof.
  split.
  - destruct (demo_blunder_tier 650) as (c & Hc & Hf & Hb).
    destruct (blunder_demotion _ _ _ c Hc Hf Hb) as (_ & _ & H & _).
    apply H. rewrite <- (f_equal (fun o => match o with Some c => Ctx.playedAfterMover c | None => 0 end) Hc).
    simpl. ring.
  - destruct (demo_blunder_tier 550) as (c & Hc & Hf & Hb).
    destruct (blunder_demotion _ _ _ c Hc Hf Hb) as (_ & _ & _ & H).
    pose proof (f_equal (fun o => match o with Some c => Ctx.playedAfterMover c | None => 0 end) Hc) as E1.
    pose proof (f_equal (fun o => match o with Some c => Ctx.bestAfterMover c | None => 0 end) Hc) as E2.
    simpl in E1, E2. apply H; lra.
Defined.

(* ========================================================================= *)
(** * C8 *)

Lemma make_ctx_positions B last p c :
  make_ctx B last p = Some c -> Ctx.lastPosition c = last /\ Ctx.position c = p.
Proof.
  unfold make_ctx.
  destruct (find_line 1 (topLines last)); [|discriminate]. simpl.
  destruct (find_line 1 (topLines p)); simpl; intro H; injection H as <-; auto.
Qed.

Lemma epl_tier_not_brilliant e : epl_tier e <> BRILLIANT.
Proof.
  unfold epl_tier.
  destruct (Rle_b e 0.02), (Rle_b e 0.05), (Rle_b e 0.10), (Rle_b e 0.20); discriminate.
Qed.

Lemma base_not_brilliant c : base_classification c <> BRILLIANT.
Proof.
  unfold base_classification.
  destruct (_ || _); [discriminate|].
  destruct (shouldBeMiss _ _ _ _ _ _ _ _); [discriminate|]. apply epl_tier_not_brilliant.
Qed.

Lemma demote_brilliant c x : demote c x = BRILLIANT -> x = BRILLIANT.
Proof.
  unfold demote. destruct x; simpl; try (intro; assumption);
    destruct (Rle_b 600 (Ctx.playedAfterMover c)); simpl;
    try destruct (Rle_b (Ctx.bestAfterMover c) (-600)); discriminate.
Qed.

Lemma winningAnyways_false c :
  winningAnyways c = false ->
  ~ (300 <= second_or0 c * Ctx.moverMultiplier c /\
     ((Ctx.bestMateInMover c = None /\ 300 <= Ctx.bestAfterMover c) \/
      exists m, Ctx.bestMateInMover c = Some m /\ 0 < m)).
Proof.
  unfold winningAnyways. cbv zeta. intros H [Hs Hb].
  apply orb_false_iff in H as [H1 H2].
  destruct (Ctx.bestMateInMover c) as [m|].
  - destruct Hb as [[Hn _] | [m' [E Hm]]]; [discriminate|]. injection E as <-.
    rewrite Rlt_b_true, Rle_b_true in H1 by lra. discriminate.
  - destruct Hb as [[_ Hb] | [m' [E _]]]; [|discriminate].
    rewrite !Rle_b_true in H2 by lra. discriminate.
Qed.

(** C8: a step that labels a (not already BRILLIANT) move BRILLIANT had:
    the move classified BEST and not upgraded to GREAT, played mover-relative
    eval >= 0, no "trivially winning" position (second best >= 300 together
    with a centipawn best >= 300 or a mate for the mover), a SAN without "="
    (no promotion), and the mover not in check before moving. *)
Theorem brilliant_requirements (B : Board) (last p : EvaluatedPosition)
  (Hin : classification p <> Some BRILLIANT)
  (H : classification (classify_step B last p) = Some BRILLIANT) :
  exists c, make_ctx B last p = Some c /\ is_forced B c = false /\
    base_classification c = BEST /\ is_great c = false /\
    0 <= Ctx.playedAfterMover c /\
    ~ (300 <= second_or0 c * Ctx.moverMultiplier c /\
       ((Ctx.bestMateInMover c = None /\ 300 <= Ctx.bestAfterMover c) \/
        exists m, Ctx.bestMateInMover c = Some m /\ 0 < m)) /\
    includes (san (move p)) "=" = false /\
    isCheck B (fen last) = false.
Proof.
  destruct (make_ctx B last p) as [c|] eqn:Hc.
  2: { rewrite (classify_step_none B last p Hc) in H. contradiction. }
  destruct (make_ctx_positions B last p c Hc) as [Hl Hp].
  rewrite (classify_step_some B last p c Hc) in H. simpl in H.
  destruct (is_forced B c) eqn:Hf; [discriminate|].
  injection H as H. unfold verdict in H. apply demote_brilliant in H.
  pose proof (base_not_brilliant c) as Hnb.
  destruct (base_classification c) eqn:Hb; simpl in H; try (exfalso; congruence).
  destruct (is_great c) eqn:Hg; simpl in H; [discriminate|].
  unfold brilliant_step in H.
  destruct (brilliant_gate c) eqn:Hgate; [|discriminate].
  destruct (isCheck B (fen (Ctx.lastPosition c))) eqn:Hch; [discriminate|].
  unfold brilliant_gate in Hgate.
  apply andb_true_iff in Hgate as [Hgate Hprom].
  apply andb_true_iff in Hgate as [Hpl Hwin].
  apply negb_true_iff in Hwin, Hprom.
  exists c. repeat split; auto.
  - apply Rle_b_spec. exact Hpl.
  - apply winningAnyways_false. exact Hwin.
  - rewrite <- Hp. exact Hprom.
  - rewrite <- Hl. exact Hch.
Qed.

(** 1.e4 (the engine's first choice) from the initial position, with a
    sacrifice search that succeeds. *)
Definition demo_e4_last := fresh fen_start EmptyString EmptyString
  [mkLine 1 20 (mkEval cp (-20) None) "e2e4"; mkLine 2 20 (mkEval cp (-30) None) "d2d4"].
Definition demo_e4 := fresh fen_e4 "e2e4" "e4" [mkLine 1 20 (mkEval cp 0 None) "e7e5"].

(** C8 witness: that move is labelled BRILLIANT, and the theorem recovers
    that the mover was not in check and did not promote. *)
Lemma brilliant_requirements_witness :
  classification (classify_step (board20 true) demo_e4_last demo_e4) = Some BRILLIANT /\
  isCheck (board20 true) fen_start = false /\ includes "e4" "=" = false.
Proof.
  assert (H : classification (classify_step (board20 true) demo_e4_last demo_e4) = Some BRILLIANT).
  { unfold classify_step. ev. unfold verdict, base_classification. crunch.
    unfold is_great. crunch. unfold brilliant_step, brilliant_gate, winningAnyways, second_or0.
    crunch. reflexivity. }
  split; [exact H|].
  destruct (brilliant_requirements (board20 true) demo_e4_last demo_e4
              ltac:(discriminate) H) as (c & _ & _ & _ & _ & _ & _ & Hprom & Hchk).
  split; assumption.
Defined.

(* ========================================================================= *)
(** * C5 *)

(** The condition the overlay loop tests, and the length of the prefix of
    consecutive positions that meet it. *)
Definition book_cond (p : EvaluatedPosition) : bool :=
  truthy_str (opening p) && Rlt_b (or0 (EPL p)) 0.01.

Fixpoint book_prefix_len (ps : list EvaluatedPosition) : nat :=
  match ps with
  | [] => O
  | p :: ps' => if book_cond p then S (book_prefix_len ps') else O
  end.

Lemma book_overlay_loop_ended ps : book_overlay_loop true ps = ps.
Proof. destruct ps; reflexivity. Qed.

(** C5: the overlay relabels as BOOK exactly the maximal leading run of
    positions (after the first) that have an opening name and EPL < 0.01; the
    first position after the run fails the condition, and from there on the
    positions are returned unchanged, whatever they contain. *)
Theorem book_overlay_stops (p0 : EvaluatedPosition) (ps : list EvaluatedPosition) :
  let k := book_prefix_len ps in
  book_overlay (p0 :: ps) = p0 :: book_overlay_loop false ps /\
  (forall j p, (j < k)%nat -> nth_error ps j = Some p ->
     book_cond p = true /\
     nth_error (book_overlay_loop false ps) j = Some (set_classification p (Some BOOK))) /\
  (forall p, nth_error ps k = Some p -> book_cond p = false) /\
  (forall j, (k <= j)%nat -> nth_error (book_overlay_loop false ps) j = nth_error ps j).
Proof.
  cbv zeta. split; [reflexivity|].
  induction ps as [|p ps IH]; simpl.
  - split; [intros j q Hj; lia|]. split; [intros q Hq; discriminate|].
    intros [|j] _; reflexivity.
  - unfold book_cond in IH |- *.
    destruct (truthy_str (opening p) && Rlt_b (or0 (EPL p)) 0.01) eqn:E.
    + destruct IH as (IH1 & IH2 & IH3). split; [|split].
      * intros [|j] q Hj Hq; simpl in Hq |- *.
        -- injection Hq as <-. auto.
        -- apply IH1; [lia | exact Hq].
      * exact IH2.
      * intros [|j] Hj; [lia|]. simpl. apply IH3. lia.
    + split; [intros j q Hj; lia|]. split.
      * intros q Hq. simpl in Hq. injection Hq as <-. exact E.
      * intros j _. rewrite book_overlay_loop_ended. reflexivity.
Qed.

(* ========================================================================= *)
(** * C6 *)

Definition Color_eqb (a b : Color) : bool :=
  match a, b with white, white | black, black => true | _, _ => false end.

(** The moves of one side that enter its accuracy, and the sum of reals. *)
Definition side_moves (col : Color) (ps : list EvaluatedPosition) :=
  filter (fun p => contributes p && Color_eqb (mover_of (fen p)) col) ps.

Definition sumR (l : list R) : R := fold_right Rplus 0 l.

Definition side_accuracy (r : Report) (col : Color) : R :=
  match col with white => accuracy_white r | black => accuracy_black r end.

Definition current_of (a : Accuracies) (col : Color) : R :=
  match col with white => white_current a | black => black_current a end.

Definition maximum_of (a : Accuracies) (col : Color) : R :=
  match col with white => white_maximum a | black => black_maximum a end.

Lemma accuracy_loop_sums ps : forall a col,
  current_of (accuracy_loop ps a) col
    = current_of a col + sumR (map moveAccuracy (side_moves col ps)) /\
  maximum_of (accuracy_loop ps a) col
    = maximum_of a col + 100 * INR (length (side_moves col ps)).
Proof.
  induction ps as [|p ps IH]; intros a col; simpl.
  - split; ring.
  - destruct (IH (if contributes p then add_move a (mover_of (fen p)) (moveAccuracy p) else a) col)
      as [E1 E2].
    rewrite E1, E2.
    change (side_moves col (p :: ps)) with
      (if contributes p && Color_eqb (mover_of (fen p)) col
       then p :: side_moves col ps else side_moves col ps).
    destruct (contributes p); cbn [andb]; [|split; ring].
    destruct (mover_of (fen p)), col; cbn [Color_eqb add_move current_of maximum_of
      white_current white_maximum black_current black_maximum map sumR fold_right length];
      try rewrite S_INR; unfold sumR; split; ring.
Qed.

Lemma final_accuracy_count cur n :
  final_accuracy cur (0 + 100 * INR n)
    = if Nat.eqb n 0 then 100 else cur / (100 * INR n) * 100.
Proof.
  unfold final_accuracy. destruct (Nat.eqb_spec n 0) as [->|Hn].
  - simpl. rewrite Rlt_b_false by lra. reflexivity.
  - assert (0 < INR n) by (apply lt_0_INR; lia).
    rewrite Rlt_b_true by lra. f_equal. f_equal. ring.
Qed.

Lemma clamp_in x : 0 <= x <= 100 -> Rmax 0 (Rmin 100 x) = x.
Proof.
  intros H. rewrite Rmin_right by lra. apply Rmax_right. lra.
Qed.

(** Four white moves with the given EPLs, classified BEST, after an equal
    position (no leniency). *)
Definition acc_demo (e : R) : EvaluatedPosition :=
  mkPos fen_e4 (mkMove "e2e4" "e4") [] (Some BEST) None None None None None
    (Some 0) None (Some e).

Definition acc_demo_game := map acc_demo [0; 0.03; 0.12; 0.25].

(** C6: each contributing move adds
    clamp(0, 100, 100 - EPL * 100 * leniency), with leniency 0.7 when the
    win probability of the previous position, made mover-relative with the
    opposite multiplier, is at most 0.15 and 1 otherwise; each side's
    accuracy is the sum of its contributions over 100 times their number,
    times 100, or 100 without contributing moves.  EPLs 0, 0.03, 0.12 and
    0.25 without leniency give 100, 97, 88, 75 and accuracy 90. *)
Theorem accuracy_per_side :
  (forall p, moveAccuracy p =
     Rmax 0 (Rmin 100 (100 - or0 (EPL p) * 100 *
       (if Rle_b (getWinningChance
                    (or0 (prevEvalWhite p) * - multiplier (mover_of (fen p)))
                    (opt_mul (prevMateInWhite p) (- multiplier (mover_of (fen p)))))
                 0.15
        then 0.7 else 1.0)))) /\
  (forall B ps col,
     let ms := side_moves col (tl (positions (analyse B ps))) in
     side_accuracy (analyse B ps) col
       = if Nat.eqb (length ms) 0 then 100
         else sumR (map moveAccuracy ms) / (100 * INR (length ms)) * 100) /\
  map moveAccuracy acc_demo_game = [100; 97; 88; 75] /\
  (let a := accuracy_loop acc_demo_game acc0 in
   final_accuracy (white_current a) (white_maximum a) = 90).
Proof.
  split; [reflexivity|]. split; [|split].
  - intros B ps col. cbv zeta.
    set (l := tl (positions (analyse B ps))).
    assert (Ha : side_accuracy (analyse B ps) col
                 = final_accuracy (current_of (accuracy_loop l acc0) col)
                                  (maximum_of (accuracy_loop l acc0) col))
      by (destruct col; reflexivity).
    rewrite Ha. destruct (accuracy_loop_sums l acc0 col) as [E1 E2].
    rewrite E2. replace (maximum_of acc0 col) with 0 by (destruct col; reflexivity).
    rewrite final_accuracy_count, E1.
    replace (current_of acc0 col) with 0 by (destruct col; reflexivity).
    destruct (Nat.eqb _ 0); [reflexivity|]. f_equal. f_equal. ring.
  - assert (Hl : forall e, leniencyFactor (acc_demo e) = 1.0).
    { intro e. unfold leniencyFactor. cbn -[getWinningChance Rle_b].
      rewrite wp_zero_eq by ring. rewrite Rle_b_false by lra. reflexivity. }
    unfold acc_demo_game. cbn [map]. unfold moveAccuracy. rewrite !Hl.
    cbn [or0 EPL acc_demo]. rewrite !clamp_in by lra.
    repeat (apply f_equal2; [lra|]). reflexivity.
  - assert (Hl : forall e, leniencyFactor (acc_demo e) = 1.0).
    { intro e. unfold leniencyFactor. cbn -[getWinningChance Rle_b].
      rewrite wp_zero_eq by ring. rewrite Rle_b_false by lra. reflexivity. }
    cbv zeta. destruct (accuracy_loop_sums acc_demo_game acc0 white) as [E1 E2].
    change (final_accuracy (current_of (accuracy_loop acc_demo_game acc0) white)
                           (maximum_of (accuracy_loop acc_demo_game acc0) white) = 90).
    rewrite E2. change (maximum_of acc0 white) with 0.
    rewrite final_accuracy_count, E1. change (current_of acc0 white) with 0.
    replace (side_moves white acc_demo_game) with acc_demo_game by reflexivity.
    unfold acc_demo_game. cbn [map length Nat.eqb]. unfold sumR. cbn [map fold_right]. unfold moveAccuracy. rewrite !Hl.
    cbn [or0 EPL acc_demo]. rewrite !clamp_in by lra.
    simpl INR. replace (100 * (1 + 1 + 1 + 1)) with 400 by ring. lra.
Qed.

(* ========================================================================= *)
(** * C7 *)

Lemma find_app {A} (f : A -> bool) l1 l2 :
  find f (l1 ++ l2) = match find f l1 with Some x => Some x | None => find f l2 end.
Proof.
  induction l1 as [|a l1 IH]; simpl; [reflexivity|]. destruct (f a); auto.
Qed.

(** The lines a classified position keeps always contain an id-1 line: the
    engine's, or the one appended by lines 369-372. *)
Lemma make_ctx_lines B last p c :
  make_ctx B last p = Some c -> find_line 1 (Ctx.lines c) <> None.
Proof.
  unfold make_ctx.
  destruct (find_line 1 (topLines last)); [|discriminate]. cbn [option_map].
  destruct (find_line 1 (topLines p)) eqn:E; cbn [option_map]; intro H;
    injection H as <-; cbn [Ctx.lines].
  - rewrite E. discriminate.
  - unfold find_line. rewrite find_app. fold (find_line 1 (topLines p)).
    rewrite E. cbn. discriminate.
Qed.

Lemma classify_step_labelled B last p :
  find_line 1 (topLines last) <> None ->
  classification (classify_step B last p) <> None /\
  find_line 1 (topLines (classify_step B last p)) <> None.
Proof.
  intro H. destruct (find_line 1 (topLines last)) as [top|] eqn:E; [|congruence].
  destruct (make_ctx_some B last p top E) as [c [Hc _]].
  rewrite (classify_step_some B last p c Hc). split; [discriminate|].
  exact (make_ctx_lines B last p c Hc).
Qed.

Lemma classify_from_labelled B rest : forall last,
  find_line 1 (topLines last) <> None ->
  Forall (fun q => classification q <> None) (classify_from B last rest).
Proof.
  induction rest as [|p rest IH]; intros last H; simpl; constructor.
  - apply classify_step_labelled. exact H.
  - apply IH. apply classify_step_labelled. exact H.
Qed.

Lemma book_overlay_loop_labelled b ps :
  Forall (fun q => classification q <> None) ps ->
  Forall (fun q => classification q <> None) (book_overlay_loop b ps).
Proof.
  revert b. induction ps as [|p ps IH]; intros b H; simpl; [constructor|].
  destruct b; [exact H|]. inversion H; subst.
  destruct (_ && _); constructor; try discriminate; auto.
  all: rewrite book_overlay_loop_ended; assumption.
Qed.

(** C7 (amended): when the first position has an engine line with id 1,
    every position after the first leaves analyse with a label; the first
    position (the start of the game, no move) keeps the classification it
    came with. *)
Theorem analyse_labels_moves (B : Board) (p0 : EvaluatedPosition)
  (ps : list EvaluatedPosition) (H0 : find_line 1 (topLines p0) <> None) :
  Forall (fun q => classification q <> None) (tl (positions (analyse B (p0 :: ps)))) /\
  option_map classification (hd_error (positions (analyse B (p0 :: ps))))
    = Some (classification p0).
Proof.
  split; [|reflexivity].
  cbn [analyse positions classify_pass opening_pass map book_overlay tl].
  apply book_overlay_loop_labelled.
  apply Forall_map. eapply Forall_impl; [|exact (classify_from_labelled B ps p0 H0)].
  intros q Hq. exact Hq.
Qed.

(** C7 counterexample: analysing the fully evaluated sequence start, 1.e4
    leaves the starting position without a label. *)
Lemma analyse_first_unlabelled :
  option_map classification
    (hd_error (positions (analyse (board20 true) [demo_e4_last; demo_e4]))) = Some None.
Proof. reflexivity. Qed.

(** C7 witness. *)
Lemma analyse_labels_moves_witness :
  find_line 1 (topLines demo_e4_last) <> None /\
  Forall (fun q => classification q <> None)
    (tl (positions (analyse (board20 true) [demo_e4_last; demo_e4]))).
Proof.
  assert (H0 : find_line 1 (topLines demo_e4_last) <> None) by (cbn; discriminate).
  split; [exact H0|].
  exact (proj1 (analyse_labels_moves (board20 true) demo_e4_last [demo_e4] H0)).
Defined.

(* ========================================================================= *)
(** * C1 *)

(** White to move, in check from the rook on a8 and with its king boxed in:
    Rc4-a4 is the only legal move.  After it Black has 19 legal moves. *)
Definition fen_c1_pre := "rr5k/8/8/8/2R5/8/8/K7 w - - 0 1"%string.
Definition fen_c1_post := "rr5k/8/8/8/R7/8/8/K7 b - - 1 1"%string.

Definition board_c1 : Board :=
  mkBoard (fun f => if String.eqb f fen_c1_pre then 1%nat else 19%nat)
          (fun _ => false) (fun f => String.eqb f fen_c1_pre)
          (fun _ _ _ _ => false) [].

Definition c1_pre := fresh fen_c1_pre EmptyString EmptyString
  [mkLine 1 20 (mkEval cp (-500) None) "c4a4"].
Definition c1_post := fresh fen_c1_post "c4a4" "Ra4"
  [mkLine 1 20 (mkEval cp (-500) None) "b8b1"].

(** C1: the FORCED test counts the legal moves of the position reached by
    the move ([position.fen]), not of the position the move was played from;
    so the only legal move Ra4 is not labelled FORCED but BEST. *)
Theorem forced_counts_position_after_move :
  (forall B last p c, make_ctx B last p = Some c ->
     is_forced B c =
       Nat.leb (moves_count B (fen p)) 1
       || (match find_line 2 (topLines last) with None => true | Some _ => false end
           && Nat.eqb (moves_count B (fen p)) 1)) /\
  moves_count board_c1 (fen c1_pre) = 1%nat /\
  option_map classification (nth_error (positions (analyse board_c1 [c1_pre; c1_post])) 1)
    = Some (Some BEST).
Proof.
  split; [|split; [reflexivity|]].
  - intros B last p c Hc. destruct (make_ctx_positions B last p c Hc) as [Hl Hp].
    unfold is_forced. rewrite Hp.
    assert (Hs : Ctx.secondTopMove c = find_line 2 (topLines last)).
    { revert Hc. unfold make_ctx.
      destruct (find_line 1 (topLines last)); [|discriminate]. cbn [option_map].
      destruct (option_map evaluation (find_line 1 (topLines p))); intro H;
        injection H as <-; reflexivity. }
    rewrite Hs. reflexivity.
  - assert (H : classification (classify_step board_c1 c1_pre c1_post) = Some BEST).
    { unfold classify_step. ev. unfold verdict, base_classification. crunch.
      unfold is_great. crunch. unfold brilliant_step, brilliant_gate, winningAnyways,
      second_or0. crunch. reflexivity. }
    cbn [analyse positions classify_pass classify_from opening_pass map book_overlay
         nth_error book_overlay_loop].
    cbn [set_opening opening openingOf openings board_c1 find option_map truthy_str andb
         classification].
    rewrite H. reflexivity.
Qed.

(* ========================================================================= *)
(** * Further code of classification.ts *)

Lemma pow10_strict x y : x < y -> pow10 x < pow10 y.
Proof.
  intro H. unfold pow10, Rpower. apply exp_increasing.
  pose proof ln10_pos. apply Rmult_lt_compat_r; lra.
Qed.

Lemma pow10_log10 z : 0 < z -> pow10 (log10 z) = z.
Proof.
  intro Hz. unfold pow10, log10, Rpower. pose proof ln10_pos.
  replace (ln z / ln 10 * ln 10) with (ln z) by (field; lra).
  apply exp_ln. exact Hz.
Qed.

Lemma wp_strict x y : x < y -> getWinningChance x None < getWinningChance y None.
Proof.
  intro H. cbn [getWinningChance].
  assert (Hp : pow10 (- y / 400) < pow10 (- x / 400)) by (apply pow10_strict; lra).
  pose proof (pow10_pos (- y / 400)). pose proof (pow10_pos (- x / 400)).
  unfold Rdiv. rewrite !Rmult_1_l. apply Rinv_lt_contravar; [nra|lra].
Qed.

Lemma wp_le_iff x y : getWinningChance x None <= getWinningChance y None <-> x <= y.
Proof.
  split; intro H.
  - destruct (Rle_lt_dec x y) as [|Hlt]; [assumption|].
    pose proof (wp_strict y x Hlt). lra.
  - destruct (Req_dec x y) as [->|Hne]; [lra|].
    pose proof (wp_strict x y ltac:(lra)). lra.
Qed.

(** [getCentipawns] on (0,1) gives a centipawn value whose win probability
    is the input. *)
Lemma getCentipawns_inner p :
  0 < p < 1 -> exists y, getCentipawns p = Fin y /\ getWinningChance y None = p.
Proof.
  intro Hp. exists (-400 * log10 (1 / p - 1)). split.
  - unfold getCentipawns. rcmp. reflexivity.
  - cbn [getWinningChance].
    replace (- (-400 * log10 (1 / p - 1)) / 400) with (log10 (1 / p - 1)) by field.
    rewrite pow10_log10.
    + field. lra.
    + assert (1 < 1 / p); [|lra].
      unfold Rdiv. rewrite Rmult_1_l. rewrite <- Rinv_1.
      apply Rinv_lt_contravar; lra.
Qed.

(** Lines 124-164: the switch gives the allowed loss of win chance, or
    returns [Infinity] for BLUNDER and every other classification. *)
Definition allowedWinChanceLoss (classif : Classification) : option R :=
  match classif with
  | BEST => Some 0
  | EXCELLENT => Some 0.02
  | GOOD => Some 0.05
  | INACCURACY => Some 0.10
  | MISTAKE => Some 0.20
  | _ => None
  end.

(** Lines 157-163, after the switch.  [Math.max(0, prevEval - Infinity)] is
    0, the [PosInf] case below (unreachable, as the target is below 1). *)
Definition lossThresholdFor (allowed prevEval : R) : ExtR :=
  let currentChance := getWinningChance prevEval None in
  let targetChance := Rmax 0 (currentChance - allowed) in
  match getCentipawns targetChance with
  | NegInf => PosInf
  | Fin targetCp => Fin (Rmax 0 (prevEval - targetCp))
  | PosInf => Fin 0
  end.

Definition getEvaluationLossThreshold (classif : Classification) (prevEval : R) : ExtR :=
  match allowedWinChanceLoss classif with
  | None => PosInf
  | Some allowed => lossThresholdFor allowed prevEval
  end.

Lemma lossThresholdFor_exhausted a prev :
  getWinningChance prev None <= a -> lossThresholdFor a prev = PosInf.
Proof.
  intro H. unfold lossThresholdFor. cbv zeta.
  rewrite Rmax_left by lra. unfold getCentipawns. rcmp. reflexivity.
Qed.

Lemma lossThresholdFor_finite a prev :
  0 <= a < getWinningChance prev None ->
  exists y, lossThresholdFor a prev = Fin (Rmax 0 (prev - y)) /\
            getWinningChance y None = getWinningChance prev None - a /\ y <= prev.
Proof.
  intro H. pose proof (wp_cp_bounds prev) as B.
  destruct (getCentipawns_inner (getWinningChance prev None - a) ltac:(lra)) as [y [E Hy]].
  exists y. split; [|split].
  - unfold lossThresholdFor. cbv zeta. rewrite Rmax_right by lra. rewrite E. reflexivity.
  - exact Hy.
  - apply wp_le_iff. lra.
Qed.

Lemma lossThresholdFor_mono a b prev :
  0 <= a <= b -> ExtR_le (lossThresholdFor a prev) (lossThresholdFor b prev).
Proof.
  intro H. pose proof (wp_cp_bounds prev) as B.
  destruct (Rle_lt_dec (getWinningChance prev None) b) as [Hb|Hb].
  - rewrite (lossThresholdFor_exhausted b prev Hb). apply ExtR_le_PosInf.
  - destruct (lossThresholdFor_finite a prev ltac:(lra)) as [ya [Ea [Ha _]]].
    destruct (lossThresholdFor_finite b prev ltac:(lra)) as [yb [Eb [Hb' _]]].
    rewrite Ea, Eb. cbn.
    assert (yb <= ya) by (apply wp_le_iff; lra).
    unfold Rmax. destruct (Rle_dec 0 (prev - ya)), (Rle_dec 0 (prev - yb)); lra.
Qed.

(** X6: the threshold grows with the severity of the classification:
    BEST <= EXCELLENT <= GOOD <= INACCURACY <= MISTAKE <= BLUNDER. *)
Theorem getEvaluationLossThreshold_monotone (prevEval : R) :
  ExtR_le (getEvaluationLossThreshold BEST prevEval) (getEvaluationLossThreshold EXCELLENT prevEval) /\
  ExtR_le (getEvaluationLossThreshold EXCELLENT prevEval) (getEvaluationLossThreshold GOOD prevEval) /\
  ExtR_le (getEvaluationLossThreshold GOOD prevEval) (getEvaluationLossThreshold INACCURACY prevEval) /\
  ExtR_le (getEvaluationLossThreshold INACCURACY prevEval) (getEvaluationLossThreshold MISTAKE prevEval) /\
  ExtR_le (getEvaluationLossThreshold MISTAKE prevEval) (getEvaluationLossThreshold BLUNDER prevEval).
Proof.
  unfold getEvaluationLossThreshold; cbn [allowedWinChanceLoss].
  repeat split; try apply lossThresholdFor_mono; try lra. apply ExtR_le_PosInf.
Qed.

(** Lines 102-106 in double precision. *)
Definition getWinPercentageLossD (d : DoubleOps) (prevCp newCp : R) : R :=
  let prevChance := getWinningChanceD d prevCp None in
  let newChance := getWinningChanceD d newCp None in
  rnd d (rnd d (prevChance - newChance) * 100).

(** Lines 170-179 in double precision. *)
Definition getEPLD (d : DoubleOps) (bestPostCp actualPostCp : R)
  (bestMateIn actualMateIn : option R) : R :=
  let bestChance := getWinningChanceD d bestPostCp bestMateIn in
  let actualChance := getWinningChanceD d actualPostCp actualMateIn in
  rnd d (bestChance - actualChance).

(** Lines 124-164 in double precision.  [prevEval - Infinity] is -Infinity,
    so [Math.max(0, prevEval - Infinity)] is 0. *)
Definition getEvaluationLossThresholdD (d : DoubleOps) (classif : Classification)
  (prevEval : R) : ExtR :=
  match allowedWinChanceLoss classif with
  | None => PosInf
  | Some allowed =>
      let currentChance := getWinningChanceD d prevEval None in
      let targetChance := Rmax 0 (rnd d (currentChance - allowed)) in
      match getCentipawnsD d targetChance with
      | NegInf => PosInf
      | Fin targetCp => Fin (Rmax 0 (rnd d (prevEval - targetCp)))
      | PosInf => Fin 0
      end
  end.

Module DoubleRounding.
Import Stdlib.Floats.Floats.

(** X1: in double precision the win-percentage loss is non-negative when the
    evaluation did not rise, non-positive when it did not fall, 0 when it is
    unchanged, and between -100 and 100.  It can be 0 although the
    evaluation dropped: from 8400 to 8000 both win chances round to 1. *)
Theorem getWinPercentageLoss_doubles (d : DoubleOps) (H : RoundsToNearest d) :
  (forall prevCp newCp : R, newCp <= prevCp -> 0 <= getWinPercentageLossD d prevCp newCp) /\
  (forall prevCp newCp : R, prevCp <= newCp -> getWinPercentageLossD d prevCp newCp <= 0) /\
  (forall cp : R, getWinPercentageLossD d cp cp = 0) /\
  (forall prevCp newCp : R, -100 <= getWinPercentageLossD d prevCp newCp <= 100) /\
  Float64.getWinPercentageLoss (8400%float) (8000%float) = Some (0%float).
Proof.
  unfold getWinPercentageLossD. cbv zeta.
  split; [|split; [|split; [|split]]].
  - intros p n Hn. pose proof (wpD_mono d H n p Hn) as M.
    apply (rnd_nonneg d H).
    assert (0 <= rnd d (getWinningChanceD d p None - getWinningChanceD d n None))
      by (apply (rnd_nonneg d H); lra).
    lra.
  - intros p n Hn. pose proof (wpD_mono d H p n Hn) as M.
    apply (rnd_nonpos d H).
    assert (rnd d (getWinningChanceD d p None - getWinningChanceD d n None) <= 0)
      by (apply (rnd_nonpos d H); lra).
    lra.
  - intro cp. rewrite Rminus_diag, (rnd_0 d H), Rmult_0_l. apply (rnd_0 d H).
  - intros p n.
    pose proof (wpD_range d H p None) as Rp. pose proof (wpD_range d H n None) as Rn.
    pose proof (rnd_range d H (getWinningChanceD d p None - getWinningChanceD d n None) 1
                  (rnd_1 d H) ltac:(lra)) as Rd.
    apply (rnd_range d H); [apply (rnd_100 d H) | lra].
  - vm_compute. reflexivity.
Qed.

(** X1 witness: exact arithmetic, a drop from 100 to 0. *)
Lemma getWinPercentageLoss_doubles_witness :
  RoundsToNearest exactOps /\ 0 <= getWinPercentageLossD exactOps 100 0.
Proof.
  split; [exact exactOps_rounds|].
  apply (proj1 (getWinPercentageLoss_doubles exactOps exactOps_rounds)). lra.
Defined.

(** X2: in double precision the expected points lost is between -1 and 1
    for all mate statuses; without mate distances it is non-negative when
    the actual move's evaluation is at most the best move's and
    non-positive when it is at least.  It can be 0 although the actual
    evaluation is higher: getEPL(8000, 8400) is 1 - 1 = 0. *)
Theorem getEPL_doubles (d : DoubleOps) (H : RoundsToNearest d) :
  (forall (bestPostCp actualPostCp : R) (bestMateIn actualMateIn : option R),
     -1 <= getEPLD d bestPostCp actualPostCp bestMateIn actualMateIn <= 1) /\
  (forall bestPostCp actualPostCp : R, actualPostCp <= bestPostCp ->
     0 <= getEPLD d bestPostCp actualPostCp None None) /\
  (forall bestPostCp actualPostCp : R, bestPostCp <= actualPostCp ->
     getEPLD d bestPostCp actualPostCp None None <= 0) /\
  Float64.getEPL (8000%float) (8400%float) None None = Some (0%float).
Proof.
  unfold getEPLD. cbv zeta.
  split; [|split; [|split]].
  - intros b a bm am.
    pose proof (wpD_range d H b bm) as Rb. pose proof (wpD_range d H a am) as Ra.
    apply (rnd_range d H); [apply (rnd_1 d H) | lra].
  - intros b a Hab. pose proof (wpD_mono d H a b Hab) as M.
    apply (rnd_nonneg d H). lra.
  - intros b a Hab. pose proof (wpD_mono d H b a Hab) as M.
    apply (rnd_nonpos d H). lra.
  - vm_compute. reflexivity.
Qed.

(** X2 witness: exact arithmetic, best 100 and actual 0. *)
Lemma getEPL_doubles_witness :
  RoundsToNearest exactOps /\ 0 <= getEPLD exactOps 100 0 None None.
Proof.
  split; [exact exactOps_rounds|].
  apply (proj1 (proj2 (getEPL_doubles exactOps exactOps_rounds))). lra.
Defined.

(** X3: in double precision [getCentipawns] is non-decreasing, with
    -infinity below and +infinity above every finite value.  It is finite
    up to the largest double below 1: there [1/p - 1] is 2^-52. *)
Theorem getCentipawns_doubles (d : DoubleOps) (H : RoundsToNearest d) :
  (forall p q : R, p <= q -> ExtR_le (getCentipawnsD d p) (getCentipawnsD d q)) /\
  Float64.getCentipawns (0x1.fffffffffffffp-1%float)
    = Float64.MinusFourHundredLog10 (0x1p-52%float).
Proof.
  split; [exact (getCentipawnsD_mono d H) | vm_compute; reflexivity].
Qed.

(** X3 witness: exact arithmetic, p = 1/4 and q = 1/2. *)
Lemma getCentipawns_doubles_witness :
  RoundsToNearest exactOps /\
  ExtR_le (getCentipawnsD exactOps (1 / 4)) (getCentipawnsD exactOps (1 / 2)).
Proof.
  split; [exact exactOps_rounds|].
  apply (proj1 (getCentipawns_doubles exactOps exactOps_rounds)). lra.
Defined.

(** X4: in double precision the threshold is +infinity for BLUNDER and for
    every classification outside BEST..MISTAKE, and otherwise +infinity or
    a finite value >= 0.  For BEST it is 0 once the win chance at prevEval
    rounds to 1. *)
Theorem getEvaluationLossThreshold_doubles_edges (d : DoubleOps) (H : RoundsToNearest d)
  (prevEval : R) :
  (forall c, In c [BLUNDER; MISS; BOOK; FORCED; BRILLIANT; GREAT] ->
     getEvaluationLossThresholdD d c prevEval = PosInf) /\
  (forall c, getEvaluationLossThresholdD d c prevEval = PosInf \/
     exists t, getEvaluationLossThresholdD d c prevEval = Fin t /\ 0 <= t) /\
  (getWinningChanceD d prevEval None = 1 ->
     getEvaluationLossThresholdD d BEST prevEval = Fin 0).
Proof.
  split; [|split].
  - intros c Hc. simpl in Hc.
    repeat destruct Hc as [<-|Hc]; try reflexivity. contradiction.
  - intro c. unfold getEvaluationLossThresholdD.
    destruct (allowedWinChanceLoss c) as [a|]; [|left; reflexivity].
    cbv zeta.
    destruct (getCentipawnsD d _) as [|t|].
    + left. reflexivity.
    + right. eexists. split; [reflexivity | apply Rmax_l].
    + right. exists 0. split; [reflexivity | lra].
  - intro Hw. unfold getEvaluationLossThresholdD. cbn [allowedWinChanceLoss]. cbv zeta.
    rewrite Hw, Rminus_0_r, (rnd_1 d H), Rmax_right by lra.
    rewrite (getCentipawnsD_high d 1 (Rle_refl 1)). reflexivity.
Qed.

(** X4 witness: exact arithmetic, BLUNDER from an equal position. *)
Lemma getEvaluationLossThreshold_doubles_edges_witness :
  RoundsToNearest exactOps /\ getEvaluationLossThresholdD exactOps BLUNDER 0 = PosInf.
Proof.
  split; [exact exactOps_rounds|].
  apply (proj1 (getEvaluationLossThreshold_doubles_edges exactOps exactOps_rounds 0)).
  simpl. auto.
Defined.

(** X5: in double precision, for a classification with an allowed loss a
    (BEST to MISTAKE), the threshold is +infinity whenever the win chance
    at prevEval is at most a; for BEST, this is a win chance rounded to 0. *)
Theorem getEvaluationLossThreshold_doubles_exhausted (d : DoubleOps) (H : RoundsToNearest d)
  (c : Classification) (a prevEval : R)
  (Ha : allowedWinChanceLoss c = Some a) (Hle : getWinningChanceD d prevEval None <= a) :
  getEvaluationLossThresholdD d c prevEval = PosInf.
Proof.
  unfold getEvaluationLossThresholdD. rewrite Ha. cbv zeta.
  rewrite Rmax_left by (apply (rnd_nonpos d H); lra).
  rewrite (getCentipawnsD_low d 0 (Rle_refl 0)). reflexivity.
Qed.

(** X5 witness: exact arithmetic, an INACCURACY at -400, where the win
    chance is 1/11 <= 0.10. *)
Lemma getEvaluationLossThreshold_doubles_exhausted_witness :
  RoundsToNearest exactOps /\ getWinningChanceD exactOps (-400) None <= 0.10 /\
  getEvaluationLossThresholdD exactOps INACCURACY (-400) = PosInf.
Proof.
  assert (W : getWinningChanceD exactOps (-400) None <= 0.10).
  { cbn [getWinningChanceD exactOps rnd mathPow10].
    replace (- -400 / 400) with 1 by field.
    unfold pow10. rewrite Rpower_1 by lra. lra. }
  split; [exact exactOps_rounds|]. split; [exact W|].
  exact (getEvaluationLossThreshold_doubles_exhausted exactOps exactOps_rounds
           INACCURACY 0.10 (-400) eq_refl W).
Defined.

End DoubleRounding.

(** Lines 41-53. *)
Definition classificationValues (c : Classification) : R :=
  match c with
  | BLUNDER => 0
  | MISTAKE => 0.2
  | MISS => 0.3
  | INACCURACY => 0.4
  | GOOD => 0.65
  | EXCELLENT => 0.9
  | BEST | GREAT | BRILLIANT | BOOK | FORCED => 1
  end.

(** X7: a larger EPL never gives a better EPL tier: the tier's value in
    [classificationValues] is non-increasing in the EPL. *)
Theorem epl_tier_antitone (e1 e2 : R) (H : e1 <= e2) :
  classificationValues (epl_tier e2) <= classificationValues (epl_tier e1).
Proof.
  unfold epl_tier.
  repeat match goal with
         | |- context [Rle_b ?a ?b] =>
             let E := fresh "E" in
             destruct (Rle_b a b) eqn:E;
             [apply Rle_b_spec in E | apply Rle_b_false_iff in E]
         end; cbn [classificationValues]; lra.
Qed.

(** X7 witness. *)
Lemma epl_tier_antitone_witness :
  0.01 <= 0.30 /\ classificationValues (epl_tier 0.30) <= classificationValues (epl_tier 0.01).
Proof. split; [lra | apply epl_tier_antitone; lra]. Defined.

(* ========================================================================= *)
(** * analysis.ts: the board cache (lines 282-294) *)

Module BoardCache.

Section Cache.
(** [new Chess(fen)] *)
Variable A : Type.
Variable newChess : string -> A.

(** A JS [Map] as its entries in insertion order. *)
Definition cache := list (string * A).

Definition has (m : cache) (k : string) : bool := existsb (fun e => String.eqb (fst e) k) m.

Definition delete (m : cache) (k : string) : cache :=
  filter (fun e => negb (String.eqb (fst e) k)) m.

(** [set] on a present key replaces its value in place; on a new key it
    appends. *)
Definition set (m : cache) (k : string) (v : A) : cache :=
  if has m k then map (fun e => if String.eqb (fst e) k then (k, v) else e) m
  else m ++ [(k, v)].

Definition get (m : cache) (k : string) : option A :=
  option_map snd (find (fun e => String.eqb (fst e) k) m).

(** [boardCache.keys().next().value] *)
Definition firstKey (m : cache) : option string := option_map fst (hd_error m).

Definition getCachedBoard (fen : string) (m : cache) : option A * cache :=
  let m' :=
    if has m fen then m
    else
      let m1 :=
        if Nat.ltb 100 (length m) then
          match firstKey m with Some k => delete m k | None => m end
        else m in
      set m1 fen (newChess fen) in
  (get m' fen, m').

(** The cache as [analyse] keeps it: distinct keys, each with the board built
    from its key, at most 101 entries. *)
Definition cache_ok (m : cache) : Prop :=
  NoDup (map fst m) /\ Forall (fun e => snd e = newChess (fst e)) m /\ (length m <= 101)%nat.

Lemma has_false m k : has m k = false -> ~ In k (map fst m).
Proof.
  induction m as [|[k' v] m IH]; simpl; [auto|].
  intros H [E|Hin]; apply orb_false_iff in H as [H1 H2].
  - subst. rewrite String.eqb_refl in H1. discriminate.
  - exact (IH H2 Hin).
Qed.

Lemma get_ok m k : Forall (fun e => snd e = newChess (fst e)) m -> has m k = true ->
  get m k = Some (newChess k).
Proof.
  induction m as [|[k' v] m IH]; simpl; [discriminate|].
  intros HF H. inversion HF as [|? ? Hv HF']; subst. unfold get. simpl.
  destruct (String.eqb_spec k' k) as [->|Hne]; simpl.
  - simpl in Hv. rewrite Hv. reflexivity.
  - apply IH; assumption.
Qed.

Lemma delete_first_ok k v m :
  NoDup (map fst ((k, v) :: m)) -> delete ((k, v) :: m) k = m.
Proof.
  intro H. inversion H as [|? ? Hni Hnd]; subst. unfold delete. simpl.
  rewrite String.eqb_refl. simpl. clear H Hnd.
  induction m as [|[k' v'] m IH]; simpl; [reflexivity|].
  simpl in Hni. destruct (String.eqb_spec k' k) as [->|Hne].
  - exfalso. apply Hni. left. reflexivity.
  - simpl. f_equal. apply IH. intro. apply Hni. right. assumption.
Qed.

Lemma has_app m k k' v : has (m ++ [(k', v)]) k = has m k || String.eqb k' k.
Proof. unfold has. rewrite existsb_app. simpl. rewrite orb_false_r. reflexivity. Qed.

Lemma append_ok m k :
  cache_ok m -> has m k = false -> (length m <= 100)%nat ->
  cache_ok (m ++ [(k, newChess k)]).
Proof.
  intros (Hnd & HF & _) Hh Hl. split; [|split].
  - rewrite map_app. simpl. apply NoDup_app.
    + exact Hnd.
    + constructor; [intros []|constructor].
    + intros x Hx [->|[]]. exact (has_false m x Hh Hx).
  - apply Forall_app. split; [exact HF|]. constructor; [reflexivity|constructor].
  - rewrite length_app. simpl. lia.
Qed.

(** The cache after the eviction step of a miss. *)
Lemma evict_ok m k :
  cache_ok m -> has m k = false ->
  let m1 := if Nat.ltb 100 (length m) then
              match firstKey m with Some k0 => delete m k0 | None => m end
            else m in
  cache_ok m1 /\ has m1 k = false /\ (length m1 <= 100)%nat.
Proof.
  intros Hok Hh. cbv zeta. destruct (Nat.ltb_spec 100 (length m)) as [Hlt|Hge].
  - destruct m as [|[k0 v0] rest]; simpl in Hlt; [lia|].
    destruct Hok as (Hnd & HF & Hl). cbn [firstKey hd_error option_map fst].
    rewrite (delete_first_ok k0 v0 rest Hnd).
    simpl in Hh. apply orb_false_iff in Hh as [_ Hh].
    inversion Hnd; subst. inversion HF; subst. simpl in Hl.
    split; [split; [|split]|split]; auto; lia.
  - split; [exact Hok|]. split; [exact Hh|lia].
Qed.

(** X8: started from a cache that satisfies [cache_ok] (the cleared cache
    does), [getCachedBoard] returns a board built from the requested FEN,
    keeps the cache well formed (distinct keys, each bound to the board of
    its key, at most 101 entries), and leaves it untouched on a hit. *)
Theorem getCachedBoard_ok (fen : string) (m : cache) (H : cache_ok m) :
  fst (getCachedBoard fen m) = Some (newChess fen) /\
  cache_ok (snd (getCachedBoard fen m)) /\
  (has m fen = true -> snd (getCachedBoard fen m) = m).
Proof.
  unfold getCachedBoard. destruct (has m fen) eqn:Hh; cbn [fst snd].
  - split; [|split; [exact H|reflexivity]]. apply get_ok; [apply H | exact Hh].
  - destruct (evict_ok m fen H Hh) as (Hok1 & Hh1 & Hl1).
    set (m1 := if Nat.ltb 100 (length m) then _ else _) in *.
    unfold set. rewrite Hh1.
    pose proof (append_ok m1 fen Hok1 Hh1 Hl1) as Hok2.
    split; [|split; [exact Hok2 | discriminate]].
    apply get_ok; [apply Hok2|]. rewrite has_app, String.eqb_refl, orb_true_r. reflexivity.
Qed.

Lemma cache_ok_nil : cache_ok [].
Proof. split; [constructor|split; [constructor|simpl; lia]]. Qed.

End Cache.
End BoardCache.

(** X8 witness: two lookups from the cleared cache, boards modelled by their
    FEN. *)
Lemma getCachedBoard_ok_witness :
  BoardCache.cache_ok string (fun f => f) [] /\
  fst (BoardCache.getCachedBoard string (fun f => f) fen_e4 []) = Some fen_e4.
Proof.
  pose proof (BoardCache.cache_ok_nil string (fun f => f)) as H0.
  split; [exact H0|].
  exact (proj1 (BoardCache.getCachedBoard_ok string (fun f => f) fen_e4 [] H0)).
Defined.

(* ========================================================================= *)
(** * Further properties of analyse *)

Lemma moveAccuracy_range p : 0 <= moveAccuracy p <= 100.
Proof.
  unfold moveAccuracy. cbv zeta. unfold Rmax, Rmin.
  destruct (Rle_dec 100 _), (Rle_dec 0 _); lra.
Qed.

Lemma sumR_range l :
  Forall (fun x => 0 <= x <= 100) l -> 0 <= sumR l <= 100 * INR (length l).
Proof.
  induction l as [|x l IH]; intro H; cbn [sumR fold_right length] in *; [simpl; lra|].
  inversion H; subst. specialize (IH ltac:(assumption)).
  rewrite S_INR. unfold sumR in IH. lra.
Qed.

(** X9: each side's accuracy reported by analyse lies between 0 and 100. *)
Theorem analyse_accuracy_range (B : Board) (ps : list EvaluatedPosition) (col : Color) :
  0 <= side_accuracy (analyse B ps) col <= 100.
Proof.
  set (l := tl (positions (analyse B ps))).
  assert (Ha : side_accuracy (analyse B ps) col
               = final_accuracy (current_of (accuracy_loop l acc0) col)
                                (maximum_of (accuracy_loop l acc0) col))
    by (destruct col; reflexivity).
  rewrite Ha. destruct (accuracy_loop_sums l acc0 col) as [E1 E2].
  rewrite E1, E2.
  replace (maximum_of acc0 col) with 0 by (destruct col; reflexivity).
  replace (current_of acc0 col) with 0 by (destruct col; reflexivity).
  rewrite final_accuracy_count.
  set (ms := side_moves col l).
  destruct (Nat.eqb_spec (length ms) 0) as [|Hn]; [lra|].
  assert (Hpos : 0 < INR (length ms)) by (apply lt_0_INR; lia).
  assert (Hs := sumR_range (map moveAccuracy ms)).
  rewrite length_map in Hs.
  assert (Hf : Forall (fun x => 0 <= x <= 100) (map moveAccuracy ms)).
  { apply Forall_map. apply Forall_forall. intros p _. apply moveAccuracy_range. }
  specialize (Hs Hf).
  split.
  - apply Rmult_le_pos; [|lra]. apply Rmult_le_pos; [lra|].
    apply Rlt_le, Rinv_0_lt_compat. lra.
  - apply (Rmult_le_reg_r (100 * INR (length ms))); [lra|].
    field_simplify; lra.
Qed.

Lemma clamp_mono x y : x <= y -> Rmax 0 (Rmin 100 x) <= Rmax 0 (Rmin 100 y).
Proof.
  intro H. unfold Rmin.
  destruct (Rle_dec 100 x), (Rle_dec 100 y); unfold Rmax;
    repeat match goal with |- context [Rle_dec ?a ?b] => destruct (Rle_dec a b) end; lra.
Qed.

Lemma clamp_top x : 100 <= x -> Rmax 0 (Rmin 100 x) = 100.
Proof. intro H. rewrite Rmin_left by lra. apply Rmax_right. lra. Qed.

(** X10: the leniency factor never lowers a move's accuracy below the plain
    [clamp(0, 100, 100 - EPL * 100)], and a move whose EPL is at most 0
    scores exactly 100. *)
Theorem moveAccuracy_leniency (p : EvaluatedPosition) :
  Rmax 0 (Rmin 100 (100 - or0 (EPL p) * 100)) <= moveAccuracy p /\
  (or0 (EPL p) <= 0 -> moveAccuracy p = 100).
Proof.
  assert (HL : 0.7 <= leniencyFactor p <= 1)
    by (unfold leniencyFactor; destruct (Rle_b _ _); lra).
  unfold moveAccuracy. cbv zeta.
  set (e := or0 (EPL p)). set (L := leniencyFactor p) in *.
  split.
  - destruct (Rle_lt_dec 0 e).
    + apply clamp_mono. nra.
    + rewrite !clamp_top by nra. lra.
  - intro He. apply clamp_top. nra.
Qed.

(** X11: when the position reached by the move has no engine line with id 1
    (a finished game), the move is scored as if that position were
    evaluated 0 with no mate distance: the stored played evaluation is 0,
    the EPL is the best line's mover-relative win chance minus 1/2, and an
    id-1 line of depth 0, value 0 and type [mate] exactly when the board is
    checkmate is appended to its lines. *)
Theorem classify_step_terminal (B : Board) (last p : EvaluatedPosition) (top : EngineLine)
  (Hl : find_line 1 (topLines last) = Some top)
  (Hp : find_line 1 (topLines p) = None) :
  let q := classify_step B last p in
  let k := multiplier (mover_of (fen p)) in
  playedAfterWhite q = Some 0 /\ playedMateInWhite q = None /\
  topLines q = topLines p ++
    [mkLine 1 0 (mkEval (if isCheckmate B (fen p) then mate else cp) 0 None) EmptyString] /\
  EPL q = Some (getWinningChance (value (evaluation top) * k)
                                 (opt_mul (mateIn (evaluation top)) k) - 1 / 2).
Proof.
  cbv zeta. unfold classify_step, make_ctx. rewrite Hl. cbn [option_map]. rewrite Hp.
  cbn [option_map].
  destruct (is_forced _ _); cbn -[getWinningChance Rmult Rminus];
    (split; [reflexivity|split; [reflexivity|split; [reflexivity|]]]);
    unfold multiplier; destruct (mover_of (fen p));
    rewrite (wp_zero_eq (0 * _)) by ring; reflexivity.
Qed.

(** X11 witness: 1.e4 reaching a position without engine lines. *)
Lemma classify_step_terminal_witness :
  find_line 1 (topLines demo_e4_last) = Some (mkLine 1 20 (mkEval cp (-20) None) "e2e4") /\
  playedAfterWhite (classify_step (board20 true) demo_e4_last (fresh fen_e4 "e2e4" "e4" []))
    = Some 0.
Proof.
  assert (Hl : find_line 1 (topLines demo_e4_last)
               = Some (mkLine 1 20 (mkEval cp (-20) None) "e2e4")) by reflexivity.
  split; [exact Hl|].
  exact (proj1 (classify_step_terminal (board20 true) demo_e4_last
                  (fresh fen_e4 "e2e4" "e4" []) _ Hl eq_refl)).
Defined.

(** X12: a move after which the board reports no legal move (checkmate or
    stalemate) is labelled FORCED, whenever the previous position has an
    id-1 engine line. *)
Theorem no_legal_moves_forced (B : Board) (last p : EvaluatedPosition)
  (Hl : find_line 1 (topLines last) <> None)
  (Hm : moves_count B (fen p) = 0%nat) :
  classification (classify_step B last p) = Some FORCED.
Proof.
  destruct (find_line 1 (topLines last)) as [top|] eqn:E; [|congruence].
  destruct (make_ctx_some B last p top E) as [c [Hc _]].
  rewrite (classify_step_some B last p c Hc).
  destruct (make_ctx_positions B last p c Hc) as [_ Hp].
  unfold is_forced. rewrite Hp, Hm. reflexivity.
Qed.

(** Fool's mate: 1.f3 e5 2.g4 Qh4#. *)
Definition fen_fool_pre := "rnbqkbnr/pppp1ppp/8/4p3/6P1/5P2/PPPPP2P/RNBQKBNR b KQkq - 0 2"%string.
Definition fen_fool_mate := "rnb1kbnr/pppp1ppp/8/4p3/6Pq/5P2/PPPPP2P/RNBQKBNR w KQkq - 1 3"%string.

Definition board_fool : Board :=
  mkBoard (fun f => if String.eqb f fen_fool_mate then 0%nat else 30%nat)
          (fun f => String.eqb f fen_fool_mate) (fun f => String.eqb f fen_fool_mate)
          (fun _ _ _ _ => false) [].

Definition fool_pre := fresh fen_fool_pre EmptyString EmptyString
  [mkLine 1 20 (mkEval mate 0 (Some (-1))) "d8h4"].
Definition fool_mate := fresh fen_fool_mate "d8h4" "Qh4#" [].

(** X12 witness: Qh4# is labelled FORCED. *)
Lemma no_legal_moves_forced_witness :
  find_line 1 (topLines fool_pre) <> None /\ moves_count board_fool (fen fool_mate) = 0%nat /\
  classification (classify_step board_fool fool_pre fool_mate) = Some FORCED.
Proof.
  assert (Hl : find_line 1 (topLines fool_pre) <> None) by (cbn; discriminate).
  assert (Hm : moves_count board_fool (fen fool_mate) = 0%nat) by reflexivity.
  split; [exact Hl|split; [exact Hm|]].
  exact (no_legal_moves_forced board_fool fool_pre fool_mate Hl Hm).
Defined.

Lemma epl_tier_not_book e : epl_tier e <> BOOK.
Proof.
  unfold epl_tier.
  destruct (Rle_b e 0.02), (Rle_b e 0.05), (Rle_b e 0.10), (Rle_b e 0.20); discriminate.
Qed.

Lemma base_not_book c : base_classification c <> BOOK.
Proof.
  unfold base_classification.
  destruct (_ || _); [discriminate|].
  destruct (shouldBeMiss _ _ _ _ _ _ _ _); [discriminate|]. apply epl_tier_not_book.
Qed.

Lemma verdict_not_book B c : verdict B c <> BOOK.
Proof.
  unfold verdict. cbv zeta. pose proof (base_not_book c) as Hb.
  destruct (base_classification c); cbn [Classification_eqb andb];
    try (destruct (is_great c)); cbn [Classification_eqb];
    try (unfold brilliant_step; destruct (brilliant_gate c);
         [destruct (isCheck _ _); [|destruct (sacrifice _ _ _ _ _)]|]);
    unfold demote; cbn [Classification_eqb andb];
    try (destruct (Rle_b 600 _)); cbn [Classification_eqb andb];
    try (destruct (Rle_b _ (-600))); congruence.
Qed.

(** X13: the classification loop never produces BOOK (its [??= BOOK] never
    fires): a position it leaves labelled BOOK was skipped (its predecessor
    has no id-1 line) and already carried BOOK. *)
Theorem classify_step_never_book (B : Board) (last p : EvaluatedPosition)
  (H : classification (classify_step B last p) = Some BOOK) :
  make_ctx B last p = None /\ classification p = Some BOOK.
Proof.
  destruct (make_ctx B last p) as [c|] eqn:Hc.
  - exfalso. rewrite (classify_step_some B last p c Hc) in H. cbn in H.
    destruct (is_forced B c); [discriminate|].
    injection H as H. exact (verdict_not_book B c H).
  - rewrite (classify_step_none B last p Hc) in H. split; [reflexivity|exact H].
Qed.

(** X13 witness: a BOOK position after a position with no engine lines. *)
Lemma classify_step_never_book_witness :
  let last := fresh fen_start EmptyString EmptyString [] in
  let p := set_classification demo_e4 (Some BOOK) in
  classification (classify_step (board20 false) last p) = Some BOOK /\
  make_ctx (board20 false) last p = None.
Proof.
  cbv zeta.
  assert (H : classification (classify_step (board20 false)
                (fresh fen_start EmptyString EmptyString [])
                (set_classification demo_e4 (Some BOOK))) = Some BOOK) by reflexivity.
  split; [exact H|].
  exact (proj1 (classify_step_never_book _ _ _ H)).
Defined.

(* ------------------------------------------------------------------------- *)
(** Lines 709-771: the per-side tally [classifications[moveColor][label] += 1].
    A property of a JS object is missing, a number, or NaN; an unset
    classification indexes the key "undefined", which starts missing, and
    [undefined + 1] is NaN. *)
Inductive TallyValue := Missing | Count (n : nat) | NaN.

Definition tally_incr (v : TallyValue) : TallyValue :=
  match v with Missing => NaN | Count n => Count (S n) | NaN => NaN end.

Definition Tallies := Color -> option Classification -> TallyValue.

Definition tallies0 : Tallies :=
  fun _ k => match k with Some _ => Count 0 | None => Missing end.

Definition opt_class_eqb (a b : option Classification) : bool :=
  match a, b with
  | Some x, Some y => Classification_eqb x y
  | None, None => true
  | _, _ => false
  end.

Definition tally_add (t : Tallies) (col : Color) (k : option Classification) : Tallies :=
  fun c k' => if Color_eqb c col && opt_class_eqb k' k then tally_incr (t c k') else t c k'.

Fixpoint tally_loop (ps : list EvaluatedPosition) (t : Tallies) : Tallies :=
  match ps with
  | [] => t
  | p :: ps' => tally_loop ps' (tally_add t (mover_of (fen p)) (classification p))
  end.

(** The [classifications] of the report, over [positions.slice(1)]. *)
Definition classifications_of (ps : list EvaluatedPosition) : Tallies :=
  tally_loop (tl ps) tallies0.

(** The moves of [col] whose classification is [k]. *)
Definition tally_count (col : Color) (k : option Classification) (ps : list EvaluatedPosition) :=
  length (filter (fun p => Color_eqb col (mover_of (fen p)) && opt_class_eqb k (classification p)) ps).

Lemma iter_incr_comm n v : Nat.iter n tally_incr (tally_incr v) = tally_incr (Nat.iter n tally_incr v).
Proof. induction n as [|n IH]; simpl; [reflexivity|]. rewrite IH. reflexivity. Qed.

Lemma tally_loop_iter ps : forall t c k,
  tally_loop ps t c k = Nat.iter (tally_count c k ps) tally_incr (t c k).
Proof.
  induction ps as [|p ps IH]; intros t c k; [reflexivity|].
  cbn [tally_loop]. rewrite IH. unfold tally_add, tally_count. cbn [filter].
  destruct (Color_eqb c (mover_of (fen p)) && opt_class_eqb k (classification p)); cbn [length].
  - rewrite iter_incr_comm. reflexivity.
  - reflexivity.
Qed.

Lemma iter_incr_count n m : Nat.iter n tally_incr (Count m) = Count (n + m).
Proof. induction n as [|n IH]; simpl; [reflexivity|]. rewrite IH. reflexivity. Qed.

Lemma iter_incr_missing n : Nat.iter n tally_incr Missing = if Nat.eqb n 0 then Missing else NaN.
Proof.
  induction n as [|n IH]; [reflexivity|]. rewrite Nat.iter_succ, IH. cbn [Nat.eqb].
  destruct (Nat.eqb n 0); reflexivity.
Qed.

(** X14: each side's tally of a label counts exactly the positions after
    the first that this side moved and that carry the label; the key
    "undefined" stays missing when no such position is unlabelled, and is
    NaN as soon as one is. *)
Theorem classifications_tally (ps : list EvaluatedPosition) (col : Color) :
  (forall k, classifications_of ps col (Some k) = Count (tally_count col (Some k) (tl ps))) /\
  classifications_of ps col None =
    (if Nat.eqb (tally_count col None (tl ps)) 0 then Missing else NaN).
Proof.
  unfold classifications_of. split.
  - intro k. rewrite tally_loop_iter. cbn [tallies0]. rewrite iter_incr_count.
    f_equal. lia.
  - rewrite tally_loop_iter. cbn [tallies0]. apply iter_incr_missing.
Qed.

Lemma tally_count_none_labelled col l :
  Forall (fun q => classification q <> None) l -> tally_count col None l = 0%nat.
Proof.
  induction l as [|q l IH]; intro H; [reflexivity|]. inversion H; subst.
  unfold tally_count. cbn [filter]. destruct (classification q); [|congruence].
  rewrite andb_false_r. apply IH. assumption.
Qed.

Lemma analyse_tail_labelled B p0 ps :
  find_line 1 (topLines p0) <> None ->
  Forall (fun q => classification q <> None) (tl (positions (analyse B (p0 :: ps)))).
Proof.
  intro H0. cbn [analyse positions classify_pass opening_pass map book_overlay tl].
  apply book_overlay_loop_labelled.
  apply Forall_map. eapply Forall_impl; [|exact (classify_from_labelled B ps p0 H0)].
  intros q Hq. exact Hq.
Qed.

(** X15: when the first position has an id-1 engine line, the report's
    tallies never gain the NaN-valued key "undefined": for both sides it
    stays missing. *)
Theorem analyse_tally_no_undefined (B : Board) (p0 : EvaluatedPosition)
  (ps : list EvaluatedPosition) (H0 : find_line 1 (topLines p0) <> None) (col : Color) :
  classifications_of (positions (analyse B (p0 :: ps))) col None = Missing.
Proof.
  unfold classifications_of. rewrite tally_loop_iter. cbn [tallies0].
  rewrite (tally_count_none_labelled col _ (analyse_tail_labelled B p0 ps H0)).
  reflexivity.
Qed.

(** X15 witness. *)
Lemma analyse_tally_no_undefined_witness :
  find_line 1 (topLines demo_e4_last) <> None /\
  classifications_of (positions (analyse (board20 true) [demo_e4_last; demo_e4])) white None
    = Missing.
Proof.
  assert (H0 : find_line 1 (topLines demo_e4_last) <> None) by (cbn; discriminate).
  split; [exact H0|].
  exact (analyse_tally_no_undefined (board20 true) demo_e4_last [demo_e4] H0 white).
Defined.

Lemma classify_step_fen_move B last p :
  fen (classify_step B last p) = fen p /\ move (classify_step B last p) = move p.
Proof.
  destruct (make_ctx B last p) as [c|] eqn:Hc.
  - rewrite (classify_step_some B last p c Hc).
    destruct (make_ctx_positions B last p c Hc) as [_ Hp]. cbn. rewrite Hp. auto.
  - rewrite (classify_step_none B last p Hc). auto.
Qed.

Definition fen_move (p : EvaluatedPosition) := (fen p, move p).

Lemma classify_from_fen_move B rest : forall last,
  map fen_move (classify_from B last rest) = map fen_move rest.
Proof.
  induction rest as [|p rest IH]; intro last; [reflexivity|].
  cbn [classify_from map]. rewrite IH. unfold fen_move at 1.
  destruct (classify_step_fen_move B last p) as [-> ->]. reflexivity.
Qed.

Lemma book_overlay_loop_fen_move b ps :
  map fen_move (book_overlay_loop b ps) = map fen_move ps.
Proof.
  revert b. induction ps as [|p ps IH]; intro b; [reflexivity|].
  destruct b; [reflexivity|]. cbn [book_overlay_loop].
  destruct (_ && _); cbn [map]; rewrite ?IH, ?book_overlay_loop_ended; reflexivity.
Qed.

(** X16: analyse returns as many positions as it was given, in the same
    order, with the same FENs and moves. *)
Theorem analyse_keeps_fen_move (B : Board) (ps : list EvaluatedPosition) :
  map fen_move (positions (analyse B ps)) = map fen_move ps.
Proof.
  destruct ps as [|p0 ps]; [reflexivity|].
  cbn [analyse positions classify_pass opening_pass book_overlay map].
  f_equal. rewrite book_overlay_loop_fen_move, map_map.
  rewrite <- (classify_from_fen_move B ps p0). apply map_ext. reflexivity.
Qed.

(** X17: a move whose previous position has no id-1 engine line is skipped:
    the classification loop returns it unchanged; if it carries no EPL, its
    accuracy contribution is then 100 whatever its previous evaluation. *)
Theorem skipped_move_unchanged (B : Board) (last p : EvaluatedPosition)
  (Hl : find_line 1 (topLines last) = None) :
  classify_step B last p = p /\
  (EPL p = None -> moveAccuracy (classify_step B last p) = 100).
Proof.
  rewrite (classify_step_none B last p (make_ctx_none B last p Hl)).
  split; [reflexivity|]. intro He.
  unfold moveAccuracy. rewrite He. cbn [or0]. apply clamp_top.
  replace (0 * 100 * leniencyFactor p) with 0 by ring. lra.
Qed.

(** X17 witness: 1.e4 after a position the engine did not evaluate. *)
Lemma skipped_move_unchanged_witness :
  find_line 1 (topLines (fresh fen_start EmptyString EmptyString [])) = None /\
  moveAccuracy (classify_step (board20 false) (fresh fen_start EmptyString EmptyString [])
                  demo_e4) = 100.
Proof.
  assert (Hl : find_line 1 (topLines (fresh fen_start EmptyString EmptyString [])) = None)
    by reflexivity.
  split; [exact Hl|].
  exact (proj2 (skipped_move_unchanged (board20 false) _ demo_e4 Hl) eq_refl).
Defined.
